(** * A shallow embedding of the dlt-parse crate

    Sources: [src/src/lib.rs] (the standard DLT header, its extended
    header, [DltPacketSlice] and [SliceIterator]) and
    [src/src/verbose/field_slicer.rs] (the [FieldSlicer] cursor used to
    decode verbose arguments).

    Conventions of the model:
    - a byte of a buffer is a [Byte.byte]; a buffer ([&[u8]], [Vec<u8>]) is
      a [list byte];
    - an unsigned field ([u8], [u16], [u32]) is an [N]; the widths are
      enforced by [header_wfb] where the Rust types enforce them;
    - a [usize] that is a slice length or index is a [nat]; the cursor
      offset of [FieldSlicer] is a [usize] in [N] with its wrap-around
      modulo [2^64] written out ([usize_add]);
    - a [Result] is [result]; a panic (out-of-range slice index) is [None]
      of an [option]. *)

From Stdlib Require Import NArith ZArith List Lia Bool.
From Stdlib Require Import Strings.Byte.
Import ListNotations.

Inductive result (A E : Type) : Type :=
| Ok (a : A)
| Err (e : E).
Arguments Ok {A E} a.
Arguments Err {A E} e.

(** ** Integers and bytes *)

(** The value of a byte, [b as u8]. *)
Definition u8_of (b : byte) : N := Byte.to_N b.

(** [x as u8]: the low 8 bits of [x]. *)
Definition as_u8 (x : N) : byte :=
  match Byte.of_N (x mod 256) with
  | Some b => b
  | None => x00
  end.

(** [BigEndian::read_u16] / [u16::from_be_bytes]. *)
Definition be_u16 (b0 b1 : byte) : N := u8_of b0 * 256 + u8_of b1.

(** [u16::from_le_bytes]. *)
Definition le_u16 (b0 b1 : byte) : N := u8_of b1 * 256 + u8_of b0.

(** [BigEndian::read_u32]. *)
Definition be_u32 (b0 b1 b2 b3 : byte) : N :=
  ((u8_of b0 * 256 + u8_of b1) * 256 + u8_of b2) * 256 + u8_of b3.

(** [BigEndian::write_u16]. *)
Definition u16_to_be (x : N) : list byte :=
  [as_u8 (N.shiftr x 8); as_u8 x].

(** [BigEndian::write_u32]. *)
Definition u32_to_be (x : N) : list byte :=
  [as_u8 (N.shiftr x 24); as_u8 (N.shiftr x 16); as_u8 (N.shiftr x 8); as_u8 x].

(** ** Data model (lib.rs) *)

Record ExtendedDltHeader := mkExtendedDltHeader {
  message_info : N;
  number_of_arguments : N;
  application_id : N;
  context_id : N
}.

Record DltHeader := mkDltHeader {
  big_endian : bool;
  version : N;
  message_counter : N;
  length : N;
  ecu_id : option N;
  session_id : option N;
  timestamp : option N;
  extended_header : option ExtendedDltHeader
}.

(** The ranges the Rust field types [u8], [u16] and [u32] impose. *)
Definition opt_lt (o : option N) (bound : N) : bool :=
  match o with Some v => v <? bound | None => true end%N.

Definition ext_wfb (e : ExtendedDltHeader) : bool :=
  ((message_info e <? 256) && (number_of_arguments e <? 256)
   && (application_id e <? 2 ^ 32) && (context_id e <? 2 ^ 32))%N.

Definition header_wfb (h : DltHeader) : bool :=
  ((version h <? 256) && (message_counter h <? 256) && (length h <? 2 ^ 16)
   && opt_lt (ecu_id h) (2 ^ 32) && opt_lt (session_id h) (2 ^ 32)
   && opt_lt (timestamp h) (2 ^ 32)
   && match extended_header h with Some e => ext_wfb e | None => true end)%N.

(** The two [io::ErrorKind]s the byte sources and sinks of the model
    produce: a [Cursor] read past its end, a write into a full fixed-size
    buffer. *)
Inductive IoErrorKind := UnexpectedEof | WriteZero.

Module ReadError.
Inductive t :=
| UnexpectedEndOfSlice (minimum_size actual_size : nat)
| LengthSmallerThenMinimum (required_length length : nat)
| IoError (k : IoErrorKind).
End ReadError.

Module WriteError.
Inductive t :=
| VersionTooLarge (v : N)
| IoError (k : IoErrorKind).
End WriteError.

Definition MAX_VERSION : N := 7.
Definition EXTDENDED_HEADER_FLAG : N := 1.
Definition BIG_ENDIAN_FLAG : N := 2.
Definition ECU_ID_FLAG : N := 4.
Definition SESSION_ID_FLAG : N := 8.
Definition TIMESTAMP_FLAG : N := 16.

(** [0 != header_type & flag] *)
Definition flag_set (header_type flag : N) : bool :=
  negb (N.land header_type flag =? 0)%N.

(** ** Reading: [io::Read] over a [Cursor] on a byte slice

    A reader consumes bytes from the front of the remaining input; running
    past its end is [IoError(UnexpectedEof)] ([read_exact]). *)

Definition reader (A : Type) : Type :=
  list byte -> result (A * list byte) ReadError.t.

Definition rret {A} (a : A) : reader A := fun s => Ok (a, s).

Definition rbind {A B} (m : reader A) (k : A -> reader B) : reader B :=
  fun s => match m s with
           | Ok (a, s') => k a s'
           | Err e => Err e
           end.

Notation "x <- m ;; k" := (rbind m (fun x => k))
  (at level 61, m at next level, right associativity).

Definition read_u8 : reader N :=
  fun s => match s with
           | b :: s' => Ok (u8_of b, s')
           | [] => Err (ReadError.IoError UnexpectedEof)
           end.

Definition read_u16_be : reader N :=
  fun s => match s with
           | b0 :: b1 :: s' => Ok (be_u16 b0 b1, s')
           | _ => Err (ReadError.IoError UnexpectedEof)
           end.

Definition read_u32_be : reader N :=
  fun s => match s with
           | b0 :: b1 :: b2 :: b3 :: s' => Ok (be_u32 b0 b1 b2 b3, s')
           | _ => Err (ReadError.IoError UnexpectedEof)
           end.

(** [DltHeader::read]; the fields of the struct literal are evaluated in
    the order they are written. *)
Definition read : reader DltHeader :=
  header_type <- read_u8 ;;
  message_counter <- read_u8 ;;
  length <- read_u16_be ;;
  ecu_id <- (if flag_set header_type ECU_ID_FLAG
             then v <- read_u32_be ;; rret (Some v) else rret None) ;;
  session_id <- (if flag_set header_type SESSION_ID_FLAG
                 then v <- read_u32_be ;; rret (Some v) else rret None) ;;
  timestamp <- (if flag_set header_type TIMESTAMP_FLAG
                then v <- read_u32_be ;; rret (Some v) else rret None) ;;
  extended_header <-
    (if flag_set header_type EXTDENDED_HEADER_FLAG
     then message_info <- read_u8 ;;
          number_of_arguments <- read_u8 ;;
          application_id <- read_u32_be ;;
          context_id <- read_u32_be ;;
          rret (Some (mkExtendedDltHeader message_info number_of_arguments
                        application_id context_id))
     else rret None) ;;
  rret (mkDltHeader (flag_set header_type BIG_ENDIAN_FLAG)
          (N.land (N.shiftr header_type 5) MAX_VERSION)
          message_counter length ecu_id session_id timestamp extended_header).

(** ** Writing: [io::Write]

    A sink is the bytes written so far and the room left: [None] for a
    growing [Vec<u8>], [Some n] for a [Cursor] over a fixed buffer with [n]
    free bytes. [write_all] into a full fixed buffer writes what fits and
    fails with [WriteZero]. *)

Record Sink := mkSink { written : list byte; room : option nat }.

Definition vec_sink (bs : list byte) : Sink := mkSink bs None.

Definition writer (A : Type) : Type := Sink -> result A WriteError.t * Sink.

Definition wret {A} (a : A) : writer A := fun s => (Ok a, s).

Definition wfail {A} (e : WriteError.t) : writer A := fun s => (Err e, s).

Definition wseq {B} (m : writer unit) (k : writer B) : writer B :=
  fun s => match m s with
           | (Ok _, s') => k s'
           | (Err e, s') => (Err e, s')
           end.

Notation "m >>w k" := (wseq m k) (at level 61, right associativity).

Definition write_all (bs : list byte) : writer unit :=
  fun s => match room s with
           | None => (Ok tt, mkSink (written s ++ bs) None)
           | Some r =>
               if Nat.leb (List.length bs) r
               then (Ok tt, mkSink (written s ++ bs) (Some (r - List.length bs)))
               else (Err (WriteError.IoError WriteZero),
                     mkSink (written s ++ firstn r bs) (Some 0))
           end.

Definition write_u8 (x : N) : writer unit := write_all [as_u8 x].
Definition write_u16_be (x : N) : writer unit := write_all (u16_to_be x).
Definition write_u32_be (x : N) : writer unit := write_all (u32_to_be x).

Definition is_some {A} (o : option A) : bool :=
  match o with Some _ => true | None => false end.

(** The header type bitfield built by [DltHeader::write]. *)
Definition header_type_of (h : DltHeader) : N :=
  let result := 0%N in
  let result := if is_some (extended_header h)
                then N.lor result EXTDENDED_HEADER_FLAG else result in
  let result := if big_endian h then N.lor result BIG_ENDIAN_FLAG else result in
  let result := if is_some (ecu_id h) then N.lor result ECU_ID_FLAG else result in
  let result := if is_some (session_id h)
                then N.lor result SESSION_ID_FLAG else result in
  let result := if is_some (timestamp h)
                then N.lor result TIMESTAMP_FLAG else result in
  N.lor result (N.land (N.shiftl (version h) 5) 224).

(** [DltHeader::write]. *)
Definition write (h : DltHeader) : writer unit :=
  if (MAX_VERSION <? version h)%N
  then wfail (WriteError.VersionTooLarge (version h))
  else
    write_u8 (header_type_of h) >>w
    write_u8 (message_counter h) >>w
    write_u16_be (length h) >>w
    match ecu_id h with Some v => write_u32_be v | None => wret tt end >>w
    match session_id h with Some v => write_u32_be v | None => wret tt end >>w
    match timestamp h with Some v => write_u32_be v | None => wret tt end >>w
    match extended_header h with
    | Some e =>
        write_u8 (message_info e) >>w
        write_u8 (number_of_arguments e) >>w
        write_u32_be (application_id e) >>w
        write_u32_be (context_id e)
    | None => wret tt
    end.

(** [DltHeader::header_len]. *)
Definition header_len (h : DltHeader) : N :=
  4 + match ecu_id h with Some _ => 4 | None => 0 end
    + match session_id h with Some _ => 4 | None => 0 end
    + match timestamp h with Some _ => 4 | None => 0 end
    + match extended_header h with Some _ => 10 | None => 0 end.

(** [ExtendedDltHeader::is_verbose]. *)
Definition is_verbose (e : ExtendedDltHeader) : bool :=
  negb (N.land (message_info e) 1 =? 0)%N.

(** [ExtendedDltHeader::set_is_verbose] (a [&mut self] method: the
    updated header is returned). *)
Definition set_is_verbose (e : ExtendedDltHeader) (b : bool) : ExtendedDltHeader :=
  if b
  then mkExtendedDltHeader (N.lor (message_info e) 1) (number_of_arguments e)
         (application_id e) (context_id e)
  else mkExtendedDltHeader (N.land (message_info e) 254) (number_of_arguments e)
         (application_id e) (context_id e).

(** [DltHeader::verbose]: only packets with an extended header can be
    verbose. *)
Definition verbose (h : DltHeader) : bool :=
  match extended_header h with
  | None => false
  | Some ext => is_verbose ext
  end.

(** ** [DltPacketSlice] and [SliceIterator] *)

Record DltPacketSlice := mkDltPacketSlice {
  slice : list byte;
  header_size : nat
}.

Definition obind {A B} (m : option A) (k : A -> option B) : option B :=
  match m with Some a => k a | None => None end.

Notation "x <-? m ;; k" := (obind m (fun x => k))
  (at level 61, m at next level, right associativity).

(** Slice indexing; [None] is the panic of an index out of range. *)
Definition index (s : list byte) (i : nat) : option byte := nth_error s i.

(** [&s[a..b]] *)
Definition subslice (s : list byte) (a b : nat) : option (list byte) :=
  if Nat.leb a b && Nat.leb b (List.length s)
  then Some (firstn (b - a) (skipn a s)) else None.

(** [&s[a..]] *)
Definition slice_from (s : list byte) (a : nat) : option (list byte) :=
  if Nat.leb a (List.length s) then Some (skipn a s) else None.

(** [BigEndian::read_u16] / [BigEndian::read_u32] on a slice: they read the
    first bytes and panic on a slice that is too short. *)
Definition read_be_u16 (s : list byte) : option N :=
  match s with b0 :: b1 :: _ => Some (be_u16 b0 b1) | _ => None end.

Definition read_be_u32 (s : list byte) : option N :=
  match s with
  | b0 :: b1 :: b2 :: b3 :: _ => Some (be_u32 b0 b1 b2 b3)
  | _ => None
  end.

(** [DltPacketSlice::from_slice]. The indexing [slice[2..4]], [slice[0]]
    and [slice[..length]] happens after the checks that put it in range
    ([4 <= slice.len()], [length <= slice.len()]), so it is written with
    [nth] and [firstn]. *)
Definition from_slice (slice : list byte) : result DltPacketSlice ReadError.t :=
  if Nat.ltb (List.length slice) 4
  then Err (ReadError.UnexpectedEndOfSlice 4 (List.length slice))
  else
    let length := N.to_nat (be_u16 (nth 2 slice x00) (nth 3 slice x00)) in
    if Nat.ltb (List.length slice) length
    then Err (ReadError.UnexpectedEndOfSlice length (List.length slice))
    else
      let header_type := u8_of (nth 0 slice x00) in
      let header_size := 4%nat in
      let header_size := if flag_set header_type EXTDENDED_HEADER_FLAG
                         then (header_size + 10)%nat else header_size in
      let header_size := if flag_set header_type ECU_ID_FLAG
                         then (header_size + 4)%nat else header_size in
      let header_size := if flag_set header_type SESSION_ID_FLAG
                         then (header_size + 4)%nat else header_size in
      let header_size := if flag_set header_type TIMESTAMP_FLAG
                         then (header_size + 4)%nat else header_size in
      if Nat.ltb length (header_size + 4)
      then Err (ReadError.LengthSmallerThenMinimum (header_size + 4) length)
      else Ok (mkDltPacketSlice (firstn length slice) header_size).

(** [DltPacketSlice::payload]: [&self.slice[self.header_size..]]. *)
Definition payload (p : DltPacketSlice) : option (list byte) :=
  slice_from (slice p) (header_size p).

(** [DltPacketSlice::header]. *)
Definition header (p : DltPacketSlice) : option DltHeader :=
  header_type <-? index (slice p) 0 ;;
  let big_endian := flag_set (u8_of header_type) BIG_ENDIAN_FLAG in
  let version := N.land (N.shiftr (u8_of header_type) 5) MAX_VERSION in
  message_counter <-? index (slice p) 1 ;;
  length <-? (r <-? subslice (slice p) 2 4 ;; read_be_u16 r) ;;
  ecu <-? (if flag_set (u8_of header_type) ECU_ID_FLAG
           then v <-? (r <-? subslice (slice p) 4 8 ;; read_be_u32 r) ;;
                rest <-? slice_from (slice p) 8 ;; Some (Some v, rest)
           else rest <-? slice_from (slice p) 4 ;; Some (None, rest)) ;;
  let (ecu_id, s) := ecu in
  session <-? (if flag_set (u8_of header_type) SESSION_ID_FLAG
               then v <-? (r <-? subslice s 0 4 ;; read_be_u32 r) ;;
                    rest <-? slice_from s 4 ;; Some (Some v, rest)
               else Some (None, s)) ;;
  let (session_id, s) := session in
  ts <-? (if flag_set (u8_of header_type) TIMESTAMP_FLAG
          then v <-? (r <-? subslice s 0 4 ;; read_be_u32 r) ;;
               rest <-? slice_from s 4 ;; Some (Some v, rest)
          else Some (None, s)) ;;
  let (timestamp, s) := ts in
  extended_header <-?
    (if flag_set (u8_of header_type) EXTDENDED_HEADER_FLAG
     then message_info <-? index s 0 ;;
          number_of_arguments <-? index s 1 ;;
          application_id <-? (r <-? subslice s 2 6 ;; read_be_u32 r) ;;
          context_id <-? (r <-? subslice s 6 10 ;; read_be_u32 r) ;;
          Some (Some (mkExtendedDltHeader (u8_of message_info)
                        (u8_of number_of_arguments) application_id context_id))
     else Some None) ;;
  Some (mkDltHeader big_endian version (u8_of message_counter) length
          ecu_id session_id timestamp extended_header).

(** [SliceIterator::next]: the iterator state is the remaining slice.
    [&self.slice[len..]] and [&self.slice[value.slice().len()..]] are in
    range (the second because [from_slice] returns a prefix), so they are
    written with [skipn]. *)
Definition next (it : list byte)
  : option (result DltPacketSlice ReadError.t) * list byte :=
  match it with
  | [] => (None, it)
  | _ :: _ =>
      let result := from_slice it in
      let it' := match result with
                 | Err _ => skipn (List.length it) it
                 | Ok value => skipn (List.length (slice value)) it
                 end in
      (Some result, it')
  end.

(** The items of [n] successive calls of [next]. *)
Fixpoint next_n (n : nat) (it : list byte)
  : list (option (result DltPacketSlice ReadError.t)) :=
  match n with
  | O => []
  | S n' => let (item, it') := next it in item :: next_n n' it'
  end.

(** ** [FieldSlicer] (verbose/field_slicer.rs) *)

(** Modelled from the spec: the error types of [crate::error], which is not
    part of the sources. [UnexpectedEndOfSlice{layer, minimum_size,
    actual_size}], the two missing-null-termination errors and a UTF-8
    error carrying the [core::str::Utf8Error] of the failed decode (the [?]
    on [from_utf8] converts into it). Only the layer [VerboseValue] the
    slicer uses is listed. *)
Inductive Layer := VerboseValue.

Record UnexpectedEndOfSliceError := mkUnexpectedEndOfSliceError {
  layer : Layer;
  minimum_size : N;
  actual_size : N
}.

(** [core::str::Utf8Error]: the length of the valid prefix. *)
Record Utf8Error := mkUtf8Error { valid_up_to : nat }.

Module VerboseDecodeError.
Inductive t :=
| UnexpectedEndOfSlice (e : UnexpectedEndOfSliceError)
| VariableNameStringMissingNullTermination
| VariableUnitStringMissingNullTermination
| Utf8 (e : Utf8Error).
End VerboseDecodeError.

(** [core::str::from_utf8]: UTF-8 well-formedness as in Table 3-7 of the
    Unicode standard (no overlong forms, no surrogates, nothing above
    U+10FFFF). [utf8_first_error s pos] is the position of the first
    ill-formed sequence, [None] when [s] is well formed. *)
Definition in_range (b : byte) (lo hi : N) : bool :=
  ((lo <=? u8_of b) && (u8_of b <=? hi))%N.

Fixpoint utf8_first_error (s : list byte) (pos : nat) : option nat :=
  match s with
  | [] => None
  | b :: s1 =>
      if in_range b 0 127 then utf8_first_error s1 (pos + 1)
      else if in_range b 194 223 then
        match s1 with
        | c1 :: s2 =>
            if in_range c1 128 191 then utf8_first_error s2 (pos + 2) else Some pos
        | [] => Some pos
        end
      else if in_range b 224 239 then
        let lo := if (u8_of b =? 224)%N then 160%N else 128%N in
        let hi := if (u8_of b =? 237)%N then 159%N else 191%N in
        match s1 with
        | c1 :: c2 :: s2 =>
            if in_range c1 lo hi && in_range c2 128 191
            then utf8_first_error s2 (pos + 3) else Some pos
        | _ => Some pos
        end
      else if in_range b 240 244 then
        let lo := if (u8_of b =? 240)%N then 144%N else 128%N in
        let hi := if (u8_of b =? 244)%N then 143%N else 191%N in
        match s1 with
        | c1 :: c2 :: c3 :: s2 =>
            if in_range c1 lo hi && in_range c2 128 191 && in_range c3 128 191
            then utf8_first_error s2 (pos + 4) else Some pos
        | _ => Some pos
        end
      else Some pos
  end.

Definition from_utf8 (s : list byte) : result (list byte) Utf8Error :=
  match utf8_first_error s 0 with
  | None => Ok s
  | Some p => Err (mkUtf8Error p)
  end.

Definition utf8_valid (s : list byte) : bool :=
  match from_utf8 s with Ok _ => true | Err _ => false end.

(** [usize] addition, wrapping modulo [2^64] (overflow checks off). *)
Definition usize_add (a b : N) : N := ((a + b) mod 2 ^ 64)%N.

Record FieldSlicer := mkFieldSlicer {
  rest : list byte;
  offset : N
}.

(** A [&mut self] method: its result and the updated slicer. *)
Definition slicer_op (A : Type) : Type :=
  FieldSlicer -> result A VerboseDecodeError.t * FieldSlicer.

Definition unexpected_end (sl : FieldSlicer) (required : nat) : VerboseDecodeError.t :=
  VerboseDecodeError.UnexpectedEndOfSlice
    (mkUnexpectedEndOfSliceError VerboseValue
       (usize_add (offset sl) (N.of_nat required))
       (usize_add (offset sl) (N.of_nat (List.length (rest sl))))).

(** Moving the slice and the offset by [n] bytes. *)
Definition advance (sl : FieldSlicer) (n : nat) : FieldSlicer :=
  mkFieldSlicer (skipn n (rest sl)) (usize_add (offset sl) (N.of_nat n)).

(** [FieldSlicer::read_u8]. *)
Definition read_u8_field : slicer_op N :=
  fun sl =>
    if Nat.ltb (List.length (rest sl)) 1 then (Err (unexpected_end sl 1), sl)
    else (Ok (u8_of (nth 0 (rest sl) x00)), advance sl 1).

(** [FieldSlicer::read_2bytes]. *)
Definition read_2bytes : slicer_op (byte * byte) :=
  fun sl =>
    if Nat.ltb (List.length (rest sl)) 2 then (Err (unexpected_end sl 2), sl)
    else (Ok (nth 0 (rest sl) x00, nth 1 (rest sl) x00), advance sl 2).

(** [FieldSlicer::read_u16]. *)
Definition read_u16 (is_big_endian : bool) : slicer_op N :=
  fun sl =>
    match read_2bytes sl with
    | (Ok (b0, b1), sl') =>
        (Ok (if is_big_endian then be_u16 b0 b1 else le_u16 b0 b1), sl')
    | (Err e, sl') => (Err e, sl')
    end.

(** A length prefix [u16::from_{be,le}_bytes([rest[i], rest[i+1]])]. *)
Definition length_prefix (is_big_endian : bool) (s : list byte) (i : nat) : nat :=
  let b0 := nth i s x00 in
  let b1 := nth (i + 1) s x00 in
  N.to_nat (if is_big_endian then be_u16 b0 b1 else le_u16 b0 b1).

(** The name (or unit) of [len] bytes at [start]: the first [len - 1] bytes,
    which must be followed by a zero byte and be valid UTF-8. *)
Definition read_string (s : list byte) (start len : nat)
  (missing_null : VerboseDecodeError.t) : result (list byte) VerboseDecodeError.t :=
  if Nat.ltb 0 len then
    let raw := firstn (len - 1) (skipn start s) in
    let last := nth (start + len - 1) s x00 in
    if negb (u8_of last =? 0)%N then Err missing_null
    else match from_utf8 raw with
         | Ok str => Ok str
         | Err e => Err (VerboseDecodeError.Utf8 e)
         end
  else Ok [].

(** [FieldSlicer::read_var_name]; the [&str] is its bytes. *)
Definition read_var_name (is_big_endian : bool) : slicer_op (list byte) :=
  fun sl =>
    if Nat.ltb (List.length (rest sl)) 2 then (Err (unexpected_end sl 2), sl)
    else
      let name_length := length_prefix is_big_endian (rest sl) 0 in
      let total_size := (2 + name_length)%nat in
      if Nat.ltb (List.length (rest sl)) total_size
      then (Err (unexpected_end sl total_size), sl)
      else
        match read_string (rest sl) 2 name_length
                VerboseDecodeError.VariableNameStringMissingNullTermination with
        | Err e => (Err e, sl)
        | Ok name => (Ok name, advance sl total_size)
        end.

(** [FieldSlicer::read_var_name_and_unit]. *)
Definition read_var_name_and_unit (is_big_endian : bool)
  : slicer_op (list byte * list byte) :=
  fun sl =>
    if Nat.ltb (List.length (rest sl)) 4 then (Err (unexpected_end sl 4), sl)
    else
      let name_length := length_prefix is_big_endian (rest sl) 0 in
      let unit_length := length_prefix is_big_endian (rest sl) 2 in
      let total_size := (4 + name_length + unit_length)%nat in
      if Nat.ltb (List.length (rest sl)) total_size
      then (Err (unexpected_end sl total_size), sl)
      else
        match read_string (rest sl) 4 name_length
                VerboseDecodeError.VariableNameStringMissingNullTermination with
        | Err e => (Err e, sl)
        | Ok name =>
            match read_string (rest sl) (4 + name_length) unit_length
                    VerboseDecodeError.VariableUnitStringMissingNullTermination with
            | Err e => (Err e, sl)
            | Ok unit => (Ok (name, unit), advance sl total_size)
            end
        end.

(** [FieldSlicer::read_raw]. *)
Definition read_raw (len : nat) : slicer_op (list byte) :=
  fun sl =>
    if Nat.ltb (List.length (rest sl)) len then (Err (unexpected_end sl len), sl)
    else (Ok (firstn len (rest sl)), advance sl len).

(** The header size announced by the flag bits of a header type byte, as
    the spec words it: 4 bytes, plus 10 with the extended header flag
    (bit 0), plus 4 each with the ECU id (bit 2), session id (bit 3) and
    timestamp (bit 4) flags. *)
Definition flag_header_size (b : byte) : nat :=
  4 + (if N.testbit (u8_of b) 0 then 10 else 0)
    + (if N.testbit (u8_of b) 2 then 4 else 0)
    + (if N.testbit (u8_of b) 3 then 4 else 0)
    + (if N.testbit (u8_of b) 4 then 4 else 0).

(** The bytes [write] emits into a [Vec<u8>] (used by the proofs). *)
Definition opt_u32_be (o : option N) : list byte :=
  match o with Some v => u32_to_be v | None => [] end.

Definition encode (h : DltHeader) : list byte :=
  [as_u8 (header_type_of h); as_u8 (message_counter h)] ++ u16_to_be (length h)
  ++ opt_u32_be (ecu_id h) ++ opt_u32_be (session_id h) ++ opt_u32_be (timestamp h)
  ++ match extended_header h with
     | Some e => [as_u8 (message_info e); as_u8 (number_of_arguments e)]
                 ++ u32_to_be (application_id e) ++ u32_to_be (context_id e)
     | None => []
     end.

Example header_type_default :
  header_type_of (mkDltHeader false 0 0 0 None None None None) = 0%N.
Proof. reflexivity. Qed.

Example write_default :
  write (mkDltHeader true 1 7 300 (Some 5%N) None None None) (vec_sink [])
  = (Ok tt, vec_sink [x26; x07; x01; x2c; x00; x00; x00; x05]).
Proof. reflexivity. Qed.

(** ** Auxiliary definitions of the statements and proofs *)

(** The write steps that can never fail with [VersionTooLarge]. *)
Definition never_version_error {A} (m : writer A) : Prop :=
  forall s v, fst (m s) <> Err (WriteError.VersionTooLarge v).

(** The bytes of an optional extended header. *)
Definition ext_bytes (o : option ExtendedDltHeader) : list byte :=
  match o with
  | Some e => [as_u8 (message_info e); as_u8 (number_of_arguments e)]
              ++ u32_to_be (application_id e) ++ u32_to_be (context_id e)
  | None => []
  end.


(** Concrete inputs of the witnesses. *)
Definition sample_ext : ExtendedDltHeader := mkExtendedDltHeader 65 2 1145128260 1094861636.

Definition sample_header : DltHeader :=
  mkDltHeader true 3 200 1000 (Some 287454020%N) None (Some 7%N) (Some sample_ext).

Definition sample_packet_header : DltHeader :=
  mkDltHeader false 1 9 17 None (Some 5%N) (Some 6%N) None.

(** A packet as the tests build it: the header written into a [Vec<u8>],
    followed by the payload. *)
Definition packet_bytes (h : DltHeader) (pl : list byte) : list byte :=
  written (snd (write h (vec_sink []))) ++ pl.

(** A (header, payload) pair that makes a valid packet: fields within their
    Rust types, version at most 7, a payload of at least 4 bytes and the
    length field equal to [header_len() + payload.len()]. *)
Definition packet_ok (hp : DltHeader * list byte) : bool :=
  let (h, pl) := hp in
  header_wfb h && (version h <=? 7)%N && Nat.leb 4 (List.length pl)
  && (length h =? header_len h + N.of_nat (List.length pl))%N.

(** The remaining slice of a [SliceIterator] after [n] calls of [next]. *)
Fixpoint next_state (n : nat) (it : list byte) : list byte :=
  match n with
  | O => it
  | S n' => next_state n' (snd (next it))
  end.

(** [u16::to_be_bytes] / [u16::to_le_bytes]. *)
Definition u16_bytes (is_big_endian : bool) (x : N) : list byte :=
  if is_big_endian then u16_to_be x else rev (u16_to_be x).

(** [m] writes [bs] into a fixed buffer ([Cursor] over [&mut [u8]]) as
    [write_all] of [bs] does: all of it when it fits, otherwise what fits
    and then [IoError(WriteZero)]. *)
Definition writes_into_fixed (m : writer unit) (bs : list byte) : Prop :=
  forall pre r,
    m (mkSink pre (Some r))
    = if Nat.leb (List.length bs) r
      then (Ok tt, mkSink (pre ++ bs) (Some (r - List.length bs)))
      else (Err (WriteError.IoError WriteZero), mkSink (pre ++ firstn r bs) (Some 0)).

(** A [FieldSlicer] operation either succeeds, dropping some [k] bytes from
    the front of [rest] and adding [k] to [offset], or fails and leaves the
    slicer unchanged. *)
Definition all_or_nothing {A} (op : slicer_op A) : Prop :=
  forall sl,
    match op sl with
    | (Ok _, sl') =>
        exists k, k <= List.length (rest sl) /\ rest sl' = skipn k (rest sl) /\
                  offset sl' = usize_add (offset sl) (N.of_nat k)
    | (Err _, sl') => sl' = sl
    end.

(** * Proofs *)

(** ** Bytes and big-endian integers *)

(** Linear arithmetic with division and remainder by constants. *)
Ltac nlia := zify; Z.to_euclidean_division_equations; lia.

Lemma u8_of_bound (b : byte) : (u8_of b < 256)%N.
Proof. unfold u8_of. pose proof (Byte.to_N_bounded b). lia. Qed.

Lemma u8_of_as_u8 (x : N) : u8_of (as_u8 x) = (x mod 256)%N.
Proof.
  unfold as_u8, u8_of. destruct (Byte.of_N (x mod 256)) eqn:E.
  - now apply Byte.to_of_N in E.
  - apply Byte.of_N_None_iff in E.
    assert (x mod 256 < 256)%N by (apply N.mod_lt; lia). lia.
Qed.

Lemma as_u8_eq (x : N) (b : byte) : (x mod 256 = u8_of b)%N -> as_u8 x = b.
Proof.
  intros H. unfold as_u8. rewrite H. unfold u8_of. now rewrite Byte.of_to_N.
Qed.

Lemma as_u8_u8_of (b : byte) : as_u8 (u8_of b) = b.
Proof.
  apply as_u8_eq. pose proof (u8_of_bound b). apply N.mod_small. lia.
Qed.

Lemma read_u8_as_u8 (x : N) (s : list byte) :
  (x < 256)%N -> read_u8 (as_u8 x :: s) = Ok (x, s).
Proof.
  intros H. simpl. rewrite u8_of_as_u8, N.mod_small by lia. reflexivity.
Qed.

Lemma be_u16_to_be (x : N) (s : list byte) :
  (x < 2 ^ 16)%N -> read_u16_be (u16_to_be x ++ s) = Ok (x, s).
Proof.
  intros H. unfold u16_to_be. cbn [app read_u16_be]. unfold be_u16.
  rewrite !u8_of_as_u8, N.shiftr_div_pow2.
  f_equal. f_equal. change (2 ^ 8)%N with 256%N. change (2 ^ 16)%N with 65536%N in H.
  nlia.
Qed.

Lemma be_u32_to_be (x : N) (s : list byte) :
  (x < 2 ^ 32)%N -> read_u32_be (u32_to_be x ++ s) = Ok (x, s).
Proof.
  intros H. unfold u32_to_be. cbn [app read_u32_be]. unfold be_u32.
  rewrite !u8_of_as_u8, !N.shiftr_div_pow2.
  f_equal. f_equal. change (2 ^ 32)%N with 4294967296%N in H.
  change (2 ^ 8)%N with 256%N. change (2 ^ 16)%N with 65536%N.
  change (2 ^ 24)%N with 16777216%N. nlia.
Qed.

Lemma u16_to_be_of (b0 b1 : byte) : u16_to_be (be_u16 b0 b1) = [b0; b1].
Proof.
  pose proof (u8_of_bound b0). pose proof (u8_of_bound b1).
  unfold u16_to_be, be_u16. rewrite N.shiftr_div_pow2. change (2 ^ 8)%N with 256%N.
  f_equal; [|f_equal]; apply as_u8_eq; nlia.
Qed.

Lemma u32_to_be_of (b0 b1 b2 b3 : byte) :
  u32_to_be (be_u32 b0 b1 b2 b3) = [b0; b1; b2; b3].
Proof.
  pose proof (u8_of_bound b0). pose proof (u8_of_bound b1).
  pose proof (u8_of_bound b2). pose proof (u8_of_bound b3).
  unfold u32_to_be, be_u32. rewrite !N.shiftr_div_pow2.
  change (2 ^ 8)%N with 256%N. change (2 ^ 16)%N with 65536%N.
  change (2 ^ 24)%N with 16777216%N.
  repeat f_equal; apply as_u8_eq; nlia.
Qed.

(** ** The header type bitfield *)

Lemma header_type_of_spec (h : DltHeader) :
  (version h <= 7)%N ->
  (header_type_of h mod 256 = header_type_of h)%N /\
  flag_set (header_type_of h) EXTDENDED_HEADER_FLAG = is_some (extended_header h) /\
  flag_set (header_type_of h) BIG_ENDIAN_FLAG = big_endian h /\
  flag_set (header_type_of h) ECU_ID_FLAG = is_some (ecu_id h) /\
  flag_set (header_type_of h) SESSION_ID_FLAG = is_some (session_id h) /\
  flag_set (header_type_of h) TIMESTAMP_FLAG = is_some (timestamp h) /\
  N.land (N.shiftr (header_type_of h) 5) MAX_VERSION = version h.
Proof.
  destruct h as [be v mc len ecu ses ts ext]; cbn [version]. intros Hv.
  assert (v = 0 \/ v = 1 \/ v = 2 \/ v = 3 \/ v = 4 \/ v = 5 \/ v = 6 \/ v = 7)%N
    as Hcases by lia.
  unfold header_type_of; cbn [extended_header big_endian ecu_id session_id timestamp version].
  destruct ecu, ses, ts, ext, be;
    repeat destruct Hcases as [Hcases|Hcases]; subst v; repeat split.
Qed.

(** Every header type byte is rebuilt by [header_type_of] from the fields
    [read] derives from it. *)
Lemma header_type_of_read (ht : byte) (mc len : N) (oe os ot : option N)
  (ox : option ExtendedDltHeader) :
  is_some ox = flag_set (u8_of ht) EXTDENDED_HEADER_FLAG ->
  is_some oe = flag_set (u8_of ht) ECU_ID_FLAG ->
  is_some os = flag_set (u8_of ht) SESSION_ID_FLAG ->
  is_some ot = flag_set (u8_of ht) TIMESTAMP_FLAG ->
  as_u8 (header_type_of (mkDltHeader (flag_set (u8_of ht) BIG_ENDIAN_FLAG)
           (N.land (N.shiftr (u8_of ht) 5) MAX_VERSION) mc len oe os ot ox)) = ht.
Proof.
  intros Hx He Hs Ht. unfold header_type_of.
  cbn [extended_header big_endian ecu_id session_id timestamp version].
  rewrite Hx, He, Hs, Ht. destruct ht; reflexivity.
Qed.

(** ** Writing into a [Vec<u8>] *)

Lemma write_vec (h : DltHeader) (acc : list byte) :
  (version h <= 7)%N ->
  write h (vec_sink acc) = (Ok tt, vec_sink (acc ++ encode h)).
Proof.
  intros Hv. unfold write.
  replace (MAX_VERSION <? version h)%N with false
    by (symmetry; apply N.ltb_ge; unfold MAX_VERSION; lia).
  unfold encode.
  destruct (ecu_id h), (session_id h), (timestamp h), (extended_header h);
    cbn [wseq write_u8 write_u16_be write_u32_be write_all wret room written
         vec_sink opt_u32_be app];
    unfold vec_sink; repeat rewrite <- app_assoc; reflexivity.
Qed.

(** ** Reading what was written *)

Lemma header_wfb_spec (h : DltHeader) :
  header_wfb h = true ->
  (version h < 256)%N /\ (message_counter h < 256)%N /\ (length h < 2 ^ 16)%N /\
  opt_lt (ecu_id h) (2 ^ 32) = true /\ opt_lt (session_id h) (2 ^ 32) = true /\
  opt_lt (timestamp h) (2 ^ 32) = true /\
  match extended_header h with Some e => ext_wfb e = true | None => True end.
Proof.
  unfold header_wfb. intros H. repeat rewrite andb_true_iff in H.
  destruct H as [[[[[[H1 H2] H3] H4] H5] H6] H7].
  rewrite N.ltb_lt in H1, H2, H3. repeat split; auto.
  destruct (extended_header h); auto.
Qed.

Lemma read_encode (h : DltHeader) (rest : list byte) :
  header_wfb h = true -> (version h <= 7)%N ->
  read (encode h ++ rest) = Ok (h, rest).
Proof.
  intros Hwf Hv.
  destruct (header_type_of_spec h Hv) as (Hm & Hx & Hb & He & Hs & Ht & Hver).
  destruct (header_wfb_spec h Hwf) as (_ & Hmc & Hlen & Oe & Os & Ot & Ox).
  unfold read, encode, rbind. cbn [app]. repeat rewrite <- app_assoc.
  rewrite read_u8_as_u8 by (rewrite <- Hm; apply N.mod_lt; lia).
  rewrite read_u8_as_u8 by assumption.
  rewrite be_u16_to_be by assumption.
  rewrite Hx, Hb, He, Hs, Ht, Hver.
  destruct h as [be v mc len ecu ses ts ext].
  cbn [big_endian version message_counter length ecu_id session_id timestamp
       extended_header] in *.
  destruct ecu as [e|], ses as [s|], ts as [t|], ext as [[mi na ai ci]|];
    cbn [opt_lt] in Oe, Os, Ot;
    try (unfold ext_wfb in Ox;
         cbn [message_info number_of_arguments application_id context_id] in Ox);
    repeat rewrite andb_true_iff in Ox;
    repeat match goal with
           | H : _ /\ _ |- _ => destruct H
           | H : (_ <? _)%N = true |- _ => apply N.ltb_lt in H
           end;
    cbn [is_some opt_u32_be app rret
         message_info number_of_arguments application_id context_id];
    repeat first [ rewrite read_u8_as_u8 by assumption
                 | rewrite be_u32_to_be by assumption
                 | progress cbn [rret]
                 | rewrite <- app_assoc ];
    reflexivity.
Qed.

(** ** Claim C1 *)

(** C1: for every header [h] (fields within their Rust types) whose version
    is at most 7, [DltHeader::write] into a [Vec<u8>] succeeds, and
    [DltHeader::read] on the produced bytes succeeds, returns [h] with every
    field equal, and consumes all of them. *)
Theorem write_read_roundtrip (h : DltHeader) :
  header_wfb h = true -> (version h <= 7)%N ->
  fst (write h (vec_sink [])) = Ok tt /\
  read (written (snd (write h (vec_sink [])))) = Ok (h, []).
Proof.
  intros Hwf Hv. rewrite write_vec by assumption. cbn [fst snd written vec_sink app].
  split; [reflexivity|]. rewrite <- (app_nil_r (encode h)).
  now apply read_encode.
Qed.

(** ** Inversion of [read] *)

Lemma rbind_inv {A B} (m : reader A) (k : A -> reader B) s b s'' :
  rbind m k s = Ok (b, s'') ->
  exists a s', m s = Ok (a, s') /\ k a s' = Ok (b, s'').
Proof.
  unfold rbind. destruct (m s) as [[a s']|e]; [|discriminate]. eauto.
Qed.

Lemma read_u8_inv s x s' :
  read_u8 s = Ok (x, s') -> exists b, s = b :: s' /\ x = u8_of b.
Proof.
  destruct s as [|b s0]; cbn [read_u8]; [discriminate|]. intros H; inversion H; eauto.
Qed.

Lemma read_u16_be_inv s x s' :
  read_u16_be s = Ok (x, s') -> s = u16_to_be x ++ s'.
Proof.
  destruct s as [|b0 [|b1 s0]]; cbn [read_u16_be]; try discriminate.
  intros H; inversion H; subst. now rewrite u16_to_be_of.
Qed.

Lemma read_u32_be_inv s x s' :
  read_u32_be s = Ok (x, s') -> s = u32_to_be x ++ s'.
Proof.
  destruct s as [|b0 [|b1 [|b2 [|b3 s0]]]]; cbn [read_u32_be]; try discriminate.
  intros H; inversion H; subst. now rewrite u32_to_be_of.
Qed.

Lemma read_opt_u32_inv (c : bool) s o s' :
  (if c then v <- read_u32_be ;; rret (Some v) else rret None) s = Ok (o, s') ->
  s = opt_u32_be o ++ s' /\ is_some o = c.
Proof.
  destruct c; intros H.
  - apply rbind_inv in H as (v & s1 & Hv & Hk). cbn in Hk. inversion Hk; subst.
    apply read_u32_be_inv in Hv. auto.
  - cbn in H. inversion H; subst. auto.
Qed.


Lemma read_ext_inv (c : bool) s o s' :
  (if c
   then message_info <- read_u8 ;;
        number_of_arguments <- read_u8 ;;
        application_id <- read_u32_be ;;
        context_id <- read_u32_be ;;
        rret (Some (mkExtendedDltHeader message_info number_of_arguments
                      application_id context_id))
   else rret None) s = Ok (o, s') ->
  s = ext_bytes o ++ s' /\ is_some o = c.
Proof.
  destruct c; intros H.
  - apply rbind_inv in H as (mi & s1 & H1 & H).
    apply rbind_inv in H as (na & s2 & H2 & H).
    apply rbind_inv in H as (ai & s3 & H3 & H).
    apply rbind_inv in H as (ci & s4 & H4 & H).
    cbn in H. inversion H; subst.
    apply read_u8_inv in H1 as (b1 & -> & ->).
    apply read_u8_inv in H2 as (b2 & -> & ->).
    apply read_u32_be_inv in H3 as ->. apply read_u32_be_inv in H4 as ->.
    cbn [ext_bytes message_info number_of_arguments application_id context_id app].
    rewrite !as_u8_u8_of. rewrite <- !app_assoc. auto.
  - cbn in H. inversion H; subst. auto.
Qed.

Lemma read_inv (bs rest : list byte) (h : DltHeader) :
  read bs = Ok (h, rest) -> bs = encode h ++ rest /\ (version h <= 7)%N.
Proof.
  unfold read. intros H.
  apply rbind_inv in H as (ht & s1 & H1 & H).
  apply rbind_inv in H as (mc & s2 & H2 & H).
  apply rbind_inv in H as (len & s3 & H3 & H).
  apply rbind_inv in H as (oe & s4 & H4 & H).
  apply rbind_inv in H as (os & s5 & H5 & H).
  apply rbind_inv in H as (ot & s6 & H6 & H).
  apply rbind_inv in H as (ox & s7 & H7 & H).
  cbn in H. inversion H; subst h rest. clear H.
  apply read_u8_inv in H1 as (b & -> & ->).
  apply read_u8_inv in H2 as (b2 & -> & ->).
  apply read_u16_be_inv in H3 as ->.
  apply read_opt_u32_inv in H4 as (-> & He).
  apply read_opt_u32_inv in H5 as (-> & Hs).
  apply read_opt_u32_inv in H6 as (-> & Ht).
  apply read_ext_inv in H7 as (-> & Hx).
  split.
  - unfold encode. cbn [message_counter length ecu_id session_id timestamp
                        extended_header].
    rewrite header_type_of_read by assumption. rewrite as_u8_u8_of.
    cbn [app]. repeat rewrite <- app_assoc. destruct ox; reflexivity.
  - cbn [version]. apply N.land_le_r.
Qed.

(** ** Claim C9 *)

(** C9: whenever [DltHeader::read] succeeds on a byte sequence [bs],
    leaving [rest] unread, [DltHeader::write] of the returned header into a
    [Vec<u8>] succeeds and writes exactly the bytes [read] consumed: [bs] is
    those bytes followed by [rest]. In particular every bit of the header
    type byte survives. *)
Theorem read_write_roundtrip (bs rest : list byte) (h : DltHeader) :
  read bs = Ok (h, rest) ->
  exists consumed,
    bs = consumed ++ rest /\ write h (vec_sink []) = (Ok tt, vec_sink consumed).
Proof.
  intros H. apply read_inv in H as [-> Hv].
  exists (encode h). split; [reflexivity|]. now rewrite write_vec.
Qed.

(** ** Claim C6 *)


Lemma write_all_never_version_error bs : never_version_error (write_all bs).
Proof.
  intros s v. unfold write_all. destruct (room s) as [r|]; cbn; [|discriminate].
  destruct (Nat.leb _ r); cbn; discriminate.
Qed.

Lemma wret_never_version_error : never_version_error (wret tt).
Proof. intros s v. discriminate. Qed.

Lemma wseq_never_version_error {B} (m : writer unit) (k : writer B) :
  never_version_error m -> never_version_error k -> never_version_error (wseq m k).
Proof.
  intros Hm Hk s v. unfold wseq. specialize (Hm s v).
  destruct (m s) as [[u|e] s']; cbn in *; [apply Hk | intros Heq; apply Hm; inversion Heq; reflexivity].
Qed.

(** C6: for every header and every sink, when the version exceeds 7,
    [DltHeader::write] fails with [VersionTooLarge(version)] and leaves the
    sink as it was (no byte written); when the version is at most 7 its
    result is never [VersionTooLarge]. *)
Theorem write_version_check (h : DltHeader) (s : Sink) :
  ((7 < version h)%N ->
   write h s = (Err (WriteError.VersionTooLarge (version h)), s)) /\
  ((version h <= 7)%N ->
   forall v, fst (write h s) <> Err (WriteError.VersionTooLarge v)).
Proof.
  split; intros Hv; unfold write.
  - replace (MAX_VERSION <? version h)%N with true
      by (symmetry; apply N.ltb_lt; exact Hv).
    reflexivity.
  - replace (MAX_VERSION <? version h)%N with false
      by (symmetry; apply N.ltb_ge; unfold MAX_VERSION; lia).
    revert s. fold (never_version_error (A := unit)).
    unfold write_u8, write_u16_be, write_u32_be.
    repeat apply wseq_never_version_error;
      repeat match goal with |- context [match ?o with _ => _ end] => destruct o end;
      repeat apply wseq_never_version_error;
      first [apply write_all_never_version_error | apply wret_never_version_error].
Qed.

(** ** Claim C10 *)

(** C10: [ExtendedDltHeader::set_is_verbose(b)] leaves bits 1 to 7 of
    [message_info] and the other three fields unchanged, makes [is_verbose]
    return [b], and applying it twice with the same argument is the same as
    applying it once. *)
Theorem set_is_verbose_spec (e : ExtendedDltHeader) (b : bool) :
  let e' := set_is_verbose e b in
  is_verbose e' = b /\
  (forall i, (1 <= i <= 7)%N ->
     N.testbit (message_info e') i = N.testbit (message_info e) i) /\
  number_of_arguments e' = number_of_arguments e /\
  application_id e' = application_id e /\
  context_id e' = context_id e /\
  set_is_verbose e' b = e'.
Proof.
  destruct e as [mi na ai ci]. unfold set_is_verbose, is_verbose.
  destruct b; cbn [message_info number_of_arguments application_id context_id];
    (split; [|split; [|split; [|split; [|split]]]]); try reflexivity.
  - assert (N.land (N.lor mi 1) 1 = 1)%N as ->; [|reflexivity].
    apply N.bits_inj; intros i. rewrite N.land_spec, N.lor_spec.
    destruct (N.testbit 1 i); [rewrite orb_true_r | rewrite andb_false_r];
      reflexivity.
  - intros i Hi. rewrite N.lor_spec.
    assert (N.testbit 1 i = false) as -> by (apply N.bits_above_log2; cbn; lia).
    apply orb_false_r.
  - f_equal. apply N.bits_inj; intros i. rewrite !N.lor_spec, <- orb_assoc, orb_diag.
    reflexivity.
  - apply negb_false_iff, N.eqb_eq. apply N.bits_inj_0; intros i.
    rewrite !N.land_spec. destruct i as [|p]; [rewrite <- andb_assoc; apply andb_false_r|].
    rewrite (N.bits_above_log2 1) by (cbn; lia). apply andb_false_r.
  - intros i Hi. rewrite N.land_spec.
    assert (i = 1 \/ i = 2 \/ i = 3 \/ i = 4 \/ i = 5 \/ i = 6 \/ i = 7)%N
      as Hc by lia.
    repeat destruct Hc as [Hc|Hc]; subst i; apply andb_true_r.
  - f_equal. apply N.bits_inj; intros i. rewrite !N.land_spec, <- andb_assoc, andb_diag.
    reflexivity.
Qed.

(** ** [from_slice] *)

Lemma flag_set_testbit (b : byte) :
  flag_set (u8_of b) EXTDENDED_HEADER_FLAG = N.testbit (u8_of b) 0 /\
  flag_set (u8_of b) ECU_ID_FLAG = N.testbit (u8_of b) 2 /\
  flag_set (u8_of b) SESSION_ID_FLAG = N.testbit (u8_of b) 3 /\
  flag_set (u8_of b) TIMESTAMP_FLAG = N.testbit (u8_of b) 4.
Proof. destruct b; repeat split. Qed.

(** The size [from_slice] computes from byte 0 is [flag_header_size]. *)
Lemma from_slice_unfold (b0 b1 b2 b3 : byte) (rest : list byte) :
  let buf := b0 :: b1 :: b2 :: b3 :: rest in
  let length := N.to_nat (be_u16 b2 b3) in
  from_slice buf =
  if Nat.ltb (List.length buf) length
  then Err (ReadError.UnexpectedEndOfSlice length (List.length buf))
  else if Nat.ltb length (flag_header_size b0 + 4)
  then Err (ReadError.LengthSmallerThenMinimum (flag_header_size b0 + 4) length)
  else Ok (mkDltPacketSlice (firstn length buf) (flag_header_size b0)).
Proof.
  cbv zeta. unfold from_slice, flag_header_size.
  destruct (flag_set_testbit b0) as (H0 & H2 & H3 & H4).
  cbn [List.length nth Nat.ltb Nat.leb]. rewrite H0, H2, H3, H4.
  destruct (N.testbit (u8_of b0) 0), (N.testbit (u8_of b0) 2),
    (N.testbit (u8_of b0) 3), (N.testbit (u8_of b0) 4); reflexivity.
Qed.

(** C2: [DltPacketSlice::from_slice] checks in stages. A buffer of fewer
    than 4 bytes fails with [UnexpectedEndOfSlice{4, len}]. Otherwise, with
    [length] the big-endian value of bytes 2 and 3: a buffer shorter than
    [length] fails with [UnexpectedEndOfSlice{length, len}]; else, with the
    header size of the flags of byte 0, a [length] below header size + 4
    fails with [LengthSmallerThenMinimum{header size + 4, length}]; else
    the result is the slice [buffer[0..length]] (with that header size). *)
Theorem from_slice_stages (buf : list byte) :
  (List.length buf < 4 ->
   from_slice buf = Err (ReadError.UnexpectedEndOfSlice 4 (List.length buf))) /\
  (forall b0 b1 b2 b3 rest, buf = b0 :: b1 :: b2 :: b3 :: rest ->
   let length := N.to_nat (be_u16 b2 b3) in
   (List.length buf < length ->
    from_slice buf = Err (ReadError.UnexpectedEndOfSlice length (List.length buf))) /\
   (length <= List.length buf -> length < flag_header_size b0 + 4 ->
    from_slice buf
    = Err (ReadError.LengthSmallerThenMinimum (flag_header_size b0 + 4) length)) /\
   (length <= List.length buf -> flag_header_size b0 + 4 <= length ->
    exists p, from_slice buf = Ok p /\ slice p = firstn length buf)).
Proof.
  split.
  - intros H. unfold from_slice. apply Nat.ltb_lt in H. now rewrite H.
  - intros b0 b1 b2 b3 rest -> length. rewrite from_slice_unfold.
    fold length. repeat split; intros.
    + apply Nat.ltb_lt in H. now rewrite H.
    + apply Nat.ltb_ge in H. apply Nat.ltb_lt in H0. now rewrite H, H0.
    + apply Nat.ltb_ge in H. apply Nat.ltb_ge in H0. rewrite H, H0. eauto.
Qed.

Lemma from_slice_ok_inv (buf : list byte) (p : DltPacketSlice) :
  from_slice buf = Ok p ->
  exists b0 b1 b2 b3 rest,
    buf = b0 :: b1 :: b2 :: b3 :: rest /\
    N.to_nat (be_u16 b2 b3) <= List.length buf /\
    flag_header_size b0 + 4 <= N.to_nat (be_u16 b2 b3) /\
    p = mkDltPacketSlice (firstn (N.to_nat (be_u16 b2 b3)) buf) (flag_header_size b0).
Proof.
  intros H. destruct buf as [|b0 [|b1 [|b2 [|b3 rest]]]];
    try (unfold from_slice in H; cbn in H; discriminate).
  rewrite from_slice_unfold in H.
  destruct (Nat.ltb_spec (List.length (b0 :: b1 :: b2 :: b3 :: rest))
              (N.to_nat (be_u16 b2 b3))); [discriminate|].
  destruct (Nat.ltb_spec (N.to_nat (be_u16 b2 b3)) (flag_header_size b0 + 4));
    [discriminate|].
  inversion H; subst. exists b0, b1, b2, b3, rest. auto.
Qed.

Lemma flag_header_size_ge (b : byte) : 4 <= flag_header_size b.
Proof. unfold flag_header_size. lia. Qed.

(** ** Claim C8 *)

(** C8: every [DltPacketSlice] [p] that [from_slice] returns for a buffer
    satisfies [header_size + 4 <= slice().len() <= buffer.len()];
    [slice().len()] equals the length field (bytes 2 and 3, big-endian) of
    [slice()]; and [payload()] returns [slice()[header_size..]] without
    panicking. *)
Theorem from_slice_invariants (buf : list byte) (p : DltPacketSlice) :
  from_slice buf = Ok p ->
  header_size p + 4 <= List.length (slice p) <= List.length buf /\
  (exists b0 b1 b2 b3 r, slice p = b0 :: b1 :: b2 :: b3 :: r /\
     List.length (slice p) = N.to_nat (be_u16 b2 b3)) /\
  payload p = Some (skipn (header_size p) (slice p)).
Proof.
  intros H. apply from_slice_ok_inv in H as (b0 & b1 & b2 & b3 & rest & -> & Hle & Hmin & ->).
  pose proof (flag_header_size_ge b0).
  set (L := N.to_nat (be_u16 b2 b3)) in *. cbn [slice header_size].
  assert (HL : List.length (firstn L (b0 :: b1 :: b2 :: b3 :: rest)) = L)
    by (rewrite length_firstn; lia).
  split; [|split].
  - rewrite HL. lia.
  - exists b0, b1, b2, b3, (firstn (L - 4) rest). split; [|exact HL].
    assert (HL4 : L = S (S (S (S (L - 4))))) by lia.
    rewrite HL4 at 1. reflexivity.
  - unfold payload, slice_from. cbn [slice header_size].
    replace (Nat.leb _ _) with true by (symmetry; apply Nat.leb_le; lia).
    reflexivity.
Qed.

(** ** Claim C7 *)

(** C7: [SliceIterator::next] returns [None] on an empty remaining buffer.
    On a non-empty one where [from_slice] succeeds with [p], it yields
    [Ok p] and drops exactly [p.slice().len()] bytes, [p.slice()] being the
    front of the buffer. Where [from_slice] fails with [e], the next [n + 1]
    calls yield [Err e] once and then [None] each time. *)
Theorem next_spec (it : list byte) :
  next [] = (None, []) /\
  (forall p, it <> [] -> from_slice it = Ok p ->
     next it = (Some (Ok p), skipn (List.length (slice p)) it) /\
     it = slice p ++ skipn (List.length (slice p)) it) /\
  (forall e, it <> [] -> from_slice it = Err e ->
     forall n, next_n (S n) it = Some (Err e) :: repeat None n).
Proof.
  split; [reflexivity|split].
  - intros p Hne Hp. destruct it as [|b it']; [congruence|].
    cbn [next]. rewrite Hp. split; [reflexivity|].
    apply from_slice_ok_inv in Hp as (b0 & b1 & b2 & b3 & rest & Heq & Hle & _ & Hp).
    rewrite Hp. cbn [slice]. rewrite length_firstn, Nat.min_l by exact Hle.
    symmetry. apply firstn_skipn.
  - intros e Hne He n. destruct it as [|b it']; [congruence|].
    cbn [next_n next]. rewrite He. rewrite skipn_all. f_equal.
    induction n as [|n IH]; [reflexivity|]. cbn. now rewrite IH.
Qed.

(** ** [header] and [payload] of an encoded packet *)

Lemma be_u16_as_u8 (x : N) :
  (x < 2 ^ 16)%N -> be_u16 (as_u8 (N.shiftr x 8)) (as_u8 x) = x.
Proof.
  intros H. pose proof (be_u16_to_be x [] H) as E. cbn [u16_to_be app read_u16_be] in E.
  injection E as E. exact E.
Qed.




Lemma encode_length (h : DltHeader) :
  List.length (encode h) = N.to_nat (header_len h).
Proof.
  destruct h as [be v mc len ecu ses ts ext].
  unfold encode, header_len, opt_u32_be, u16_to_be, u32_to_be.
  cbn [ecu_id session_id timestamp extended_header].
  destruct ecu, ses, ts, ext; reflexivity.
Qed.

Lemma flag_header_size_of_header (h : DltHeader) :
  (version h <= 7)%N ->
  flag_header_size (as_u8 (header_type_of h)) = N.to_nat (header_len h).
Proof.
  destruct h as [be v mc len ecu ses ts ext]; cbn [version]. intros Hv.
  assert (v = 0 \/ v = 1 \/ v = 2 \/ v = 3 \/ v = 4 \/ v = 5 \/ v = 6 \/ v = 7)%N
    as Hcases by lia.
  unfold header_type_of, header_len.
  cbn [extended_header big_endian ecu_id session_id timestamp version].
  destruct ecu, ses, ts, ext, be;
    repeat destruct Hcases as [Hcases|Hcases]; subst v; reflexivity.
Qed.


(** ** Claim C3 *)




(** ** [FieldSlicer] *)

Example utf8_examples :
  utf8_valid [x68; xc3; xa9] = true /\ utf8_valid [xc0; x80] = false /\
  utf8_valid [xed; xa0; x80] = false /\ utf8_valid [xf4; x8f; xbf; xbf] = true /\
  utf8_valid [xf4; x90; x80; x80] = false /\ from_utf8 [x41; xe2; x82] = Err (mkUtf8Error 1).
Proof. repeat split. Qed.

Example read_var_name_example :
  read_var_name true (mkFieldSlicer [x00; x03; x61; x62; x00; x07] 10)
  = (Ok [x61; x62], mkFieldSlicer [x07] 15).
Proof. reflexivity. Qed.

(** C4: each [FieldSlicer] read ([read_u8], [read_2bytes], [read_u16],
    [read_var_name], [read_var_name_and_unit], [read_raw]) either succeeds,
    dropping [k] bytes from the front of the remaining slice and advancing
    the offset by the same [k] ([usize] addition), or fails and leaves the
    remaining slice and the offset as they were. *)
Theorem field_slicer_all_or_nothing :
  all_or_nothing read_u8_field /\ all_or_nothing read_2bytes /\
  (forall be, all_or_nothing (read_u16 be)) /\
  (forall be, all_or_nothing (read_var_name be)) /\
  (forall be, all_or_nothing (read_var_name_and_unit be)) /\
  (forall len, all_or_nothing (read_raw len)).
Proof.
  repeat split; unfold all_or_nothing; intros;
    unfold read_u16, read_u8_field, read_2bytes, read_var_name,
      read_var_name_and_unit, read_raw; cbv beta zeta;
    repeat match goal with
           | |- context [Nat.ltb ?a ?b] =>
               destruct (Nat.ltb_spec a b); cbv beta iota zeta; [reflexivity|]
           | |- context [match read_string ?s ?i ?n ?e with _ => _ end] =>
               destruct (read_string s i n e); cbv beta iota zeta; [|reflexivity]
           end;
    match goal with |- context [advance ?sl ?k] => exists k end;
    (split; [lia | split; reflexivity]).
Qed.

Lemma u8_of_zero (b : byte) : (u8_of b =? 0)%N = Byte.eqb b x00.
Proof. destruct b; reflexivity. Qed.

(** C5: [FieldSlicer::read_var_name(be)] on a slicer whose remaining bytes
    start with the length prefix [b0 b1], [n] being its value in the given
    endianness. If [n = 0] the result is the empty string and exactly 2
    bytes are consumed. If [n > 0]: with fewer than [n] bytes after the
    prefix it fails with [UnexpectedEndOfSlice]; else if the last of the
    [n] bytes is not [0x00] it fails with the missing-null-termination
    error; else if the first [n - 1] of them are not valid UTF-8 it fails
    with a UTF-8 error; else it returns those [n - 1] bytes and consumes
    [2 + n] bytes. Every failure leaves the slicer unchanged. *)
Theorem read_var_name_spec (be : bool) (sl : FieldSlicer) (b0 b1 : byte)
  (r : list byte) :
  rest sl = b0 :: b1 :: r ->
  let n := N.to_nat (if be then be_u16 b0 b1 else le_u16 b0 b1) in
  (n = 0 ->
   read_var_name be sl = (Ok [], mkFieldSlicer r (usize_add (offset sl) 2))) /\
  (0 < n -> List.length r < n ->
   read_var_name be sl
   = (Err (VerboseDecodeError.UnexpectedEndOfSlice
             (mkUnexpectedEndOfSliceError VerboseValue
                (usize_add (offset sl) (N.of_nat (2 + n)))
                (usize_add (offset sl) (N.of_nat (2 + List.length r))))), sl)) /\
  (0 < n -> n <= List.length r -> nth (n - 1) r x00 <> x00 ->
   read_var_name be sl
   = (Err VerboseDecodeError.VariableNameStringMissingNullTermination, sl)) /\
  (0 < n -> n <= List.length r -> nth (n - 1) r x00 = x00 ->
   utf8_valid (firstn (n - 1) r) = false ->
   exists e, read_var_name be sl = (Err (VerboseDecodeError.Utf8 e), sl)) /\
  (0 < n -> n <= List.length r -> nth (n - 1) r x00 = x00 ->
   utf8_valid (firstn (n - 1) r) = true ->
   read_var_name be sl
   = (Ok (firstn (n - 1) r),
      mkFieldSlicer (skipn n r) (usize_add (offset sl) (N.of_nat (2 + n))))).
Proof.
  intros Hrest n. destruct sl as [rs off]; cbn [rest offset] in *; subst rs.
  unfold read_var_name, advance, unexpected_end. cbv zeta.
  cbn [rest offset List.length skipn].
  change (length_prefix be (b0 :: b1 :: r) 0) with n.
  replace (Nat.ltb (S (S (List.length r))) 2) with false by reflexivity.
  assert (Hstr : forall e, 0 < n ->
            read_string (b0 :: b1 :: r) 2 n e
            = if negb (Byte.eqb (nth (n - 1) r x00) x00) then Err e
              else match from_utf8 (firstn (n - 1) r) with
                   | Ok str => Ok str
                   | Err e => Err (VerboseDecodeError.Utf8 e)
                   end).
  { intros e Hpos. unfold read_string.
    replace (Nat.ltb 0 n) with true by (symmetry; apply Nat.ltb_lt; exact Hpos).
    replace (2 + n - 1) with (S (S (n - 1))) by lia.
    cbn [skipn nth]. now rewrite u8_of_zero. }
  repeat split; intros Hpos; try intros Hlen; try intros Hlast; try intros Hutf.
  - subst n. rewrite Hpos. cbn [Nat.ltb Nat.leb read_string].
    replace (Nat.leb (S (S (List.length r))) 1) with false
      by (symmetry; apply Nat.leb_gt; lia).
    unfold read_string. cbn [Nat.ltb Nat.leb]. reflexivity.
  - replace (Nat.ltb (S (S (List.length r))) (2 + n)) with true
      by (symmetry; apply Nat.ltb_lt; lia).
    reflexivity.
  - replace (Nat.ltb (S (S (List.length r))) (2 + n)) with false
      by (symmetry; apply Nat.ltb_ge; lia).
    rewrite Hstr by exact Hpos.
    destruct (Byte.eqb (nth (n - 1) r x00) x00) eqn:E;
      [apply Byte.byte_dec_bl in E; contradiction | reflexivity].
  - replace (Nat.ltb (S (S (List.length r))) (2 + n)) with false
      by (symmetry; apply Nat.ltb_ge; lia).
    rewrite Hstr by exact Hpos. rewrite Hlast.
    change (Byte.eqb x00 x00) with true. cbn [negb].
    unfold utf8_valid in Hutf.
    destruct (from_utf8 (firstn (n - 1) r)); [discriminate|]. eauto.
  - replace (Nat.ltb (S (S (List.length r))) (2 + n)) with false
      by (symmetry; apply Nat.ltb_ge; lia).
    rewrite Hstr by exact Hpos. rewrite Hlast.
    change (Byte.eqb x00 x00) with true. cbn [negb].
    unfold utf8_valid, from_utf8 in *.
    destruct (utf8_first_error (firstn (n - 1) r) 0); [discriminate|].
    reflexivity.
Qed.

(** * Further properties of the code *)

(** ** [DltHeader::read] needs exactly the announced header size *)

(** On a buffer that holds the header size announced by byte 0,
    [header()] and [read] decode the same header. *)
Lemma header_read_agree (b0 b1 b2 b3 : byte) (r : list byte) (hs : nat) :
  flag_header_size b0 <= 4 + List.length r ->
  exists h,
    header (mkDltPacketSlice (b0 :: b1 :: b2 :: b3 :: r) hs) = Some h /\
    read (b0 :: b1 :: b2 :: b3 :: r)
    = Ok (h, skipn (flag_header_size b0) (b0 :: b1 :: b2 :: b3 :: r)) /\
    header_len h = N.of_nat (flag_header_size b0).
Proof.
  unfold flag_header_size.
  destruct (flag_set_testbit b0) as (H0 & H2 & H3 & H4).
  rewrite <- H0, <- H2, <- H3, <- H4. clear H0 H2 H3 H4. intros Hlen.
  unfold header, index, subslice, slice_from, read_be_u16, read_be_u32.
  cbn [read rbind rret read_u8 read_u16_be slice obind nth_error].
  destruct (flag_set (u8_of b0) EXTDENDED_HEADER_FLAG),
    (flag_set (u8_of b0) ECU_ID_FLAG), (flag_set (u8_of b0) SESSION_ID_FLAG),
    (flag_set (u8_of b0) TIMESTAMP_FLAG); cbn [Nat.add] in Hlen |- *;
  do 22 (try (destruct r as [|? r]; [exfalso; cbn [List.length] in Hlen; lia|]));
  cbn [rbind rret read_u8 read_u16_be read_u32_be List.length Nat.ltb Nat.leb skipn
       firstn andb obind nth_error Nat.sub];
  eexists; (split; [reflexivity|split; reflexivity]).
Qed.

(** X2: [DltHeader::read] succeeds exactly when the input holds at least the
    header size announced by the flags of its first byte, and then consumes
    exactly that many bytes; on a shorter input (also an empty one) it fails
    with [IoError(UnexpectedEof)]. *)
Theorem read_needs_header_size (bs : list byte) :
  match bs with
  | [] => read bs = Err (ReadError.IoError UnexpectedEof)
  | b0 :: _ =>
      if Nat.ltb (List.length bs) (flag_header_size b0)
      then read bs = Err (ReadError.IoError UnexpectedEof)
      else exists h, read bs = Ok (h, skipn (flag_header_size b0) bs)
  end.
Proof.
  destruct bs as [|b0 r]; [reflexivity|].
  unfold flag_header_size.
  destruct (flag_set_testbit b0) as (H0 & H2 & H3 & H4).
  rewrite <- H0, <- H2, <- H3, <- H4. clear H0 H2 H3 H4.
  cbn [read rbind rret read_u8].
  destruct (flag_set (u8_of b0) EXTDENDED_HEADER_FLAG),
    (flag_set (u8_of b0) ECU_ID_FLAG), (flag_set (u8_of b0) SESSION_ID_FLAG),
    (flag_set (u8_of b0) TIMESTAMP_FLAG); cbn [Nat.add];
  do 26 (try (destruct r as [|? r];
              [cbn [rbind rret read_u8 read_u16_be read_u32_be List.length Nat.ltb Nat.leb];
               reflexivity|]));
  cbn [rbind rret read_u8 read_u16_be read_u32_be List.length Nat.ltb Nat.leb skipn];
  eexists; reflexivity.
Qed.

(** ** [DltPacketSlice::header] *)

(** X1: for every slice [p] that [from_slice] returns, [header()] does not
    panic, and it returns the header [DltHeader::read] decodes from
    [p.slice()], which reads exactly [header_size] bytes and leaves the
    payload; the [header_len()] of that header is [header_size]. *)
Theorem header_of_packet (buf : list byte) (p : DltPacketSlice) :
  from_slice buf = Ok p ->
  exists h, header p = Some h /\
            read (slice p) = Ok (h, skipn (header_size p) (slice p)) /\
            header_len h = N.of_nat (header_size p).
Proof.
  intros H.
  apply from_slice_ok_inv in H as (b0 & b1 & b2 & b3 & rest & -> & Hle & Hmin & ->).
  cbn [slice header_size].
  set (L := N.to_nat (be_u16 b2 b3)) in *.
  replace L with (S (S (S (S (L - 4))))) by (pose proof (flag_header_size_ge b0); lia).
  cbn [firstn]. apply header_read_agree.
  rewrite length_firstn. cbn [List.length] in Hle. lia.
Qed.

(** ** [DltPacketSlice::from_slice] and trailing bytes *)

(** X4: bytes after a packet do not change what [from_slice] decides: a
    buffer it accepts is accepted with the same slice when more bytes
    follow, and a [LengthSmallerThenMinimum] error stays the same error. *)
Theorem from_slice_ignores_trailing (buf extra : list byte) :
  match from_slice buf with
  | Ok p => from_slice (buf ++ extra) = Ok p
  | Err (ReadError.LengthSmallerThenMinimum req len) =>
      from_slice (buf ++ extra) = Err (ReadError.LengthSmallerThenMinimum req len)
  | Err _ => True
  end.
Proof.
  destruct buf as [|b0 [|b1 [|b2 [|b3 rest]]]]; try exact I.
  cbn [app]. rewrite !from_slice_unfold.
  set (L := N.to_nat (be_u16 b2 b3)).
  set (buf := b0 :: b1 :: b2 :: b3 :: rest).
  change (b0 :: b1 :: b2 :: b3 :: rest ++ extra) with (buf ++ extra).
  destruct (Nat.ltb_spec (List.length buf) L); [exact I|].
  replace (Nat.ltb (List.length (buf ++ extra)) L) with false
    by (symmetry; apply Nat.ltb_ge; rewrite length_app; lia).
  destruct (Nat.ltb (L) (flag_header_size b0 + 4)); [reflexivity|].
  rewrite firstn_app. replace (L - List.length buf) with 0 by lia.
  rewrite app_nil_r. reflexivity.
Qed.

(** ** [DltHeader::write] into a growing and into a fixed buffer *)

Lemma write_all_fixed (bs : list byte) : writes_into_fixed (write_all bs) bs.
Proof. intros pre r. reflexivity. Qed.

Lemma wret_fixed : writes_into_fixed (wret tt) [].
Proof.
  intros pre r. cbn [List.length Nat.leb]. unfold wret. now rewrite app_nil_r, Nat.sub_0_r.
Qed.

Lemma wseq_fixed (m k : writer unit) (a b : list byte) :
  writes_into_fixed m a -> writes_into_fixed k b -> writes_into_fixed (m >>w k) (a ++ b).
Proof.
  intros Hm Hk pre r. unfold wseq. rewrite Hm, length_app.
  destruct (Nat.leb_spec (List.length a) r).
  - rewrite Hk, <- app_assoc.
    destruct (Nat.leb_spec (List.length b) (r - List.length a)).
    + replace (Nat.leb (List.length a + List.length b) r) with true
        by (symmetry; apply Nat.leb_le; lia).
      f_equal. f_equal. f_equal. lia.
    + replace (Nat.leb (List.length a + List.length b) r) with false
        by (symmetry; apply Nat.leb_gt; lia).
      rewrite firstn_app, (firstn_all2 (n := r) a), app_assoc by lia. reflexivity.
  - replace (Nat.leb (List.length a + List.length b) r) with false
      by (symmetry; apply Nat.leb_gt; lia).
    rewrite firstn_app. replace (r - List.length a) with 0 by lia.
    now rewrite firstn_O, app_nil_r.
Qed.

Lemma opt_u32_fixed (o : option N) :
  writes_into_fixed (match o with Some v => write_u32_be v | None => wret tt end)
    (opt_u32_be o).
Proof. destruct o; [apply write_all_fixed | apply wret_fixed]. Qed.

Lemma write_fixed (h : DltHeader) :
  (version h <= 7)%N -> writes_into_fixed (write h) (encode h).
Proof.
  intros Hv. unfold write.
  replace (MAX_VERSION <? version h)%N with false by (symmetry; apply N.ltb_ge; exact Hv).
  change (encode h) with
    ([as_u8 (header_type_of h)] ++ [as_u8 (message_counter h)] ++ u16_to_be (length h)
     ++ opt_u32_be (ecu_id h) ++ opt_u32_be (session_id h) ++ opt_u32_be (timestamp h)
     ++ ext_bytes (extended_header h)).
  repeat apply wseq_fixed; try apply write_all_fixed; try apply opt_u32_fixed.
  destruct (extended_header h) as [e|]; [|apply wret_fixed].
  change (ext_bytes (Some e)) with
    ([as_u8 (message_info e)] ++ [as_u8 (number_of_arguments e)]
     ++ u32_to_be (application_id e) ++ u32_to_be (context_id e)).
  repeat apply wseq_fixed; apply write_all_fixed.
Qed.

Lemma header_len_le (h : DltHeader) : (4 <= header_len h <= 26)%N.
Proof.
  unfold header_len.
  destruct (ecu_id h), (session_id h), (timestamp h), (extended_header h); lia.
Qed.

(** X3: for a header of version at most 7, [write] emits exactly
    [header_len()] bytes (between 4 and 26). Into a [Vec] it appends them
    after what the vector holds. Into a fixed buffer with room for [r]
    bytes it writes them all when they fit, and otherwise writes the first
    [r] of them and fails with [IoError(WriteZero)]. *)
Theorem write_into_sinks (h : DltHeader) (pre : list byte) (r : nat) :
  (version h <= 7)%N ->
  let bs := written (snd (write h (vec_sink []))) in
  N.of_nat (List.length bs) = header_len h /\ (4 <= header_len h <= 26)%N /\
  write h (vec_sink pre) = (Ok tt, vec_sink (pre ++ bs)) /\
  (List.length bs <= r ->
   write h (mkSink pre (Some r)) = (Ok tt, mkSink (pre ++ bs) (Some (r - List.length bs)))) /\
  (r < List.length bs ->
   write h (mkSink pre (Some r))
   = (Err (WriteError.IoError WriteZero), mkSink (pre ++ firstn r bs) (Some 0))).
Proof.
  intros Hv bs.
  assert (Hbs : bs = encode h) by (subst bs; now rewrite write_vec).
  rewrite Hbs. clear bs Hbs.
  pose proof (header_len_le h) as Hle.
  split; [rewrite encode_length; lia|]. split; [exact Hle|].
  split; [now apply write_vec|].
  split; intros Hr; rewrite write_fixed by exact Hv.
  - replace (Nat.leb _ _) with true by (symmetry; now apply Nat.leb_le). reflexivity.
  - replace (Nat.leb _ _) with false by (symmetry; now apply Nat.leb_gt). reflexivity.
Qed.

(** ** [SliceIterator] *)

Lemma next_n_add (n m : nat) (it : list byte) :
  next_n (n + m) it = next_n n it ++ next_n m (next_state n it).
Proof.
  revert it. induction n as [|n IH]; intros it; [reflexivity|].
  cbn [Nat.add next_n next_state]. destruct (next it) as [item it'] eqn:E.
  cbn [snd app]. now rewrite IH.
Qed.

Lemma next_n_nil (m : nat) : next_n m [] = repeat None m.
Proof. induction m as [|m IH]; [reflexivity|]. cbn. now rewrite IH. Qed.

Lemma next_state_nil (n : nat) : next_state n [] = [].
Proof. induction n as [|n IH]; [reflexivity|]. exact IH. Qed.

Lemma from_slice_ok_length (buf : list byte) (p : DltPacketSlice) :
  from_slice buf = Ok p -> 8 <= List.length (slice p) <= List.length buf /\
                           slice p = firstn (List.length (slice p)) buf.
Proof.
  intros H. apply from_slice_ok_inv in H as (b0 & b1 & b2 & b3 & rest & -> & Hle & Hmin & ->).
  pose proof (flag_header_size_ge b0). cbn [slice]. rewrite length_firstn.
  repeat split; [lia|lia|]. f_equal. lia.
Qed.

Lemma next_shrinks (it : list byte) :
  snd (next it) = [] \/ List.length (snd (next it)) + 8 <= List.length it.
Proof.
  destruct it as [|b it']; [now left|]. cbn [next snd].
  destruct (from_slice (b :: it')) as [p|e] eqn:E.
  - right. apply from_slice_ok_length in E. rewrite length_skipn. lia.
  - left. apply skipn_all.
Qed.

Lemma next_state_empty (n : nat) (it : list byte) :
  List.length it / 8 < n -> next_state n it = [].
Proof.
  revert it. induction n as [|n IH]; intros it Hn; [lia|].
  cbn [next_state]. destruct (next_shrinks it) as [E|E].
  - rewrite E. apply next_state_nil.
  - apply IH.
    assert ((List.length (snd (next it)) + 1 * 8) / 8 <= List.length it / 8)
      by (apply Nat.Div0.div_le_mono; lia).
    rewrite Nat.div_add in H by lia. lia.
Qed.

(** X6: a [SliceIterator] over [len] bytes is exhausted after at most
    [len / 8 + 1] calls of [next]: every packet it yields takes at least 8
    bytes, and an error ends the iteration; from then on [next] returns
    [None]. *)
Theorem next_exhausted (it : list byte) (n m : nat) :
  List.length it / 8 < n -> next_n (n + m) it = next_n n it ++ repeat None m.
Proof.
  intros Hn. rewrite next_n_add, next_state_empty by exact Hn. now rewrite next_n_nil.
Qed.

Lemma from_slice_ok_app (buf extra : list byte) (p : DltPacketSlice) :
  from_slice buf = Ok p -> from_slice (buf ++ extra) = Ok p.
Proof.
  intros H. pose proof H as H'.
  apply from_slice_ok_inv in H' as (b0 & b1 & b2 & b3 & rest & -> & Hle & Hmin & _).
  cbn [app]. rewrite from_slice_unfold in H |- *.
  set (L := N.to_nat (be_u16 b2 b3)) in *.
  set (buf := b0 :: b1 :: b2 :: b3 :: rest) in *.
  change (b0 :: b1 :: b2 :: b3 :: rest ++ extra) with (buf ++ extra).
  replace (Nat.ltb (List.length buf) L) with false in H by (symmetry; now apply Nat.ltb_ge).
  replace (Nat.ltb (List.length (buf ++ extra)) L) with false
    by (symmetry; apply Nat.ltb_ge; rewrite length_app; lia).
  destruct (Nat.ltb L (flag_header_size b0 + 4)); [discriminate|].
  rewrite firstn_app. replace (L - List.length buf) with 0 by lia.
  now rewrite app_nil_r.
Qed.

Lemma packet_ok_spec (h : DltHeader) (pl : list byte) :
  packet_ok (h, pl) = true ->
  header_wfb h = true /\ (version h <= 7)%N /\ 4 <= List.length pl /\
  length h = (header_len h + N.of_nat (List.length pl))%N.
Proof.
  unfold packet_ok. rewrite !andb_true_iff, N.leb_le, Nat.leb_le, N.eqb_eq. tauto.
Qed.

Lemma from_slice_packet (h : DltHeader) (pl : list byte) :
  packet_ok (h, pl) = true ->
  from_slice (packet_bytes h pl)
  = Ok (mkDltPacketSlice (packet_bytes h pl) (N.to_nat (header_len h))).
Proof.
  intros Hok. apply packet_ok_spec in Hok as (Hwf & Hv & Hpl & Hlen).
  unfold packet_bytes. rewrite write_vec by assumption. cbn [snd written app].
  destruct (header_wfb_spec h Hwf) as (_ & _ & Hl16 & _).
  assert (HL : N.to_nat (length h) = List.length (encode h ++ pl)).
  { rewrite Hlen, length_app, encode_length, N2Nat.inj_add, Nat2N.id. reflexivity. }
  assert (Hc : exists b1 rest, encode h ++ pl =
            as_u8 (header_type_of h) :: b1 :: as_u8 (N.shiftr (length h) 8)
            :: as_u8 (length h) :: rest).
  { unfold encode, u16_to_be. cbn [app]. eauto. }
  destruct Hc as (b1 & rest & Hc).
  rewrite Hc at 1. rewrite from_slice_unfold, be_u16_as_u8 by assumption.
  rewrite flag_header_size_of_header by assumption. rewrite <- Hc, <- HL.
  rewrite Nat.ltb_irrefl.
  replace (Nat.ltb _ _) with false
    by (symmetry; apply Nat.ltb_ge; rewrite Hlen, N2Nat.inj_add, Nat2N.id; lia).
  rewrite firstn_all2 by lia. reflexivity.
Qed.

(** X5: iterating over valid packets written one after another (each a
    header of version at most 7 followed by a payload of at least 4 bytes,
    with a matching length field) yields each packet in order, its slice
    being exactly the packet's bytes and its header size the header's
    [header_len()]; the iterator then goes on with the bytes that follow. *)
Theorem iterate_packets (packets : list (DltHeader * list byte)) (tail : list byte)
  (m : nat) :
  forallb packet_ok packets = true ->
  next_n (List.length packets + m)
    (concat (map (fun hp => packet_bytes (fst hp) (snd hp)) packets) ++ tail)
  = map (fun hp => Some (Ok (mkDltPacketSlice (packet_bytes (fst hp) (snd hp))
                               (N.to_nat (header_len (fst hp)))))) packets
    ++ next_n m tail.
Proof.
  induction packets as [|[h pl] ps IH]; intros Hall; [reflexivity|].
  cbn [forallb] in Hall. apply andb_true_iff in Hall as [Hok Hall].
  cbn [List.length map concat fst snd Nat.add next_n app].
  rewrite <- app_assoc.
  pose proof (from_slice_packet h pl Hok) as Hp.
  assert (Hne : packet_bytes h pl <> []).
  { unfold packet_bytes. apply packet_ok_spec in Hok as (_ & Hv & _).
    rewrite write_vec by assumption. unfold encode. cbn. discriminate. }
  set (rest := concat (map (fun hp => packet_bytes (fst hp) (snd hp)) ps) ++ tail).
  assert (Hnext : next (packet_bytes h pl ++ rest)
                  = (Some (Ok (mkDltPacketSlice (packet_bytes h pl)
                                 (N.to_nat (header_len h)))), rest)).
  { assert (Hne' : packet_bytes h pl ++ rest <> [])
      by (destruct (packet_bytes h pl); [congruence | discriminate]).
    unfold next. destruct (packet_bytes h pl ++ rest) as [|b bs] eqn:E;
      [congruence|]. rewrite <- E.
    rewrite (from_slice_ok_app _ _ _ Hp). cbn [slice].
    now rewrite skipn_app, skipn_all, Nat.sub_diag. }
  rewrite Hnext. subst rest. now rewrite IH.
Qed.

(** ** Composition of [FieldSlicer] reads *)

Lemma usize_add_assoc (a : N) (x y : nat) :
  usize_add (usize_add a (N.of_nat x)) (N.of_nat y) = usize_add a (N.of_nat (x + y)).
Proof.
  unfold usize_add. rewrite N.Div0.add_mod_idemp_l.
  f_equal. lia.
Qed.

(** X7: [read_u16(be)] reads the same two bytes as two calls of [read_u8]
    and ends in the same slicer, combining them big- or little-endian. When
    the second byte is missing it fails with the error of the second
    [read_u8]; when the first is missing, with [UnexpectedEndOfSlice] for
    2 bytes. Every failure leaves the slicer unchanged. *)
Theorem read_u16_two_u8 (be : bool) (sl : FieldSlicer) :
  read_u16 be sl =
  match read_u8_field sl with
  | (Ok x, sl1) =>
      match read_u8_field sl1 with
      | (Ok y, sl2) => (Ok (if be then x * 256 + y else y * 256 + x)%N, sl2)
      | (Err e, _) => (Err e, sl)
      end
  | (Err _, _) => (Err (unexpected_end sl 2), sl)
  end.
Proof.
  destruct sl as [rs off]. unfold read_u16, read_2bytes, read_u8_field, advance.
  destruct rs as [|b0 [|b1 r]]; cbn [rest offset List.length Nat.ltb Nat.leb nth skipn].
  - reflexivity.
  - unfold unexpected_end. cbn [rest offset List.length]. rewrite !usize_add_assoc. reflexivity.
  - rewrite usize_add_assoc. destruct be; reflexivity.
Qed.

Lemma firstn_add_split {A} (a b : nat) (l : list A) :
  firstn (a + b) l = firstn a l ++ firstn b (skipn a l).
Proof.
  revert l. induction a as [|a IH]; intros l; [reflexivity|].
  destruct l as [|x l]; [now rewrite !firstn_nil|]. cbn. now rewrite IH.
Qed.

(** X8: [read_raw(a + b)] is [read_raw(a)] followed by [read_raw(b)]: on
    success it returns the concatenation of the two slices and ends in the
    same slicer; when only the first read succeeds it fails with the
    second read's error; when the first read fails it fails with
    [UnexpectedEndOfSlice] for [a + b] bytes. Failures leave the slicer
    unchanged. *)
Theorem read_raw_split (a b : nat) (sl : FieldSlicer) :
  read_raw (a + b) sl =
  match read_raw a sl with
  | (Ok x, sl1) =>
      match read_raw b sl1 with
      | (Ok y, sl2) => (Ok (x ++ y), sl2)
      | (Err e, _) => (Err e, sl)
      end
  | (Err _, _) => (Err (unexpected_end sl (a + b)), sl)
  end.
Proof.
  destruct sl as [rs off]. unfold read_raw, advance, unexpected_end.
  cbn [rest offset].
  destruct (Nat.ltb_spec (List.length rs) a).
  - replace (Nat.ltb (List.length rs) (a + b)) with true
      by (symmetry; apply Nat.ltb_lt; lia). reflexivity.
  - cbn [rest offset]. rewrite length_skipn.
    destruct (Nat.ltb_spec (List.length rs - a) b).
    + replace (Nat.ltb (List.length rs) (a + b)) with true
        by (symmetry; apply Nat.ltb_lt; lia).
      rewrite !usize_add_assoc. do 5 f_equal. lia.
    + replace (Nat.ltb (List.length rs) (a + b)) with false
        by (symmetry; apply Nat.ltb_ge; lia).
      rewrite usize_add_assoc, skipn_skipn, firstn_add_split. f_equal. f_equal. f_equal. lia.
Qed.

(** ** [FieldSlicer::read_var_name_and_unit] *)

Lemma read_string_ok (s : list byte) (start len : nat) (e : VerboseDecodeError.t) :
  (len = 0 \/ (nth (start + len - 1) s x00 = x00 /\
               utf8_valid (firstn (len - 1) (skipn start s)) = true)) ->
  read_string s start len e = Ok (firstn (len - 1) (skipn start s)).
Proof.
  unfold read_string. destruct len as [|len]; [reflexivity|].
  intros [H|[Hlast Hv]]; [discriminate|].
  cbn [Nat.ltb Nat.leb]. rewrite Hlast. change (u8_of x00 =? 0)%N with true.
  cbn [negb]. unfold utf8_valid in Hv. destruct (from_utf8 _) eqn:E; [|discriminate].
  unfold from_utf8 in E. destruct (utf8_first_error _ 0); [discriminate|].
  injection E as E. rewrite <- E. reflexivity.
Qed.

Lemma read_string_null (s : list byte) (start len : nat) (e : VerboseDecodeError.t) :
  0 < len -> nth (start + len - 1) s x00 <> x00 -> read_string s start len e = Err e.
Proof.
  intros Hpos Hlast. unfold read_string.
  replace (Nat.ltb 0 len) with true by (symmetry; now apply Nat.ltb_lt).
  rewrite u8_of_zero.
  destruct (Byte.eqb _ x00) eqn:E; [apply Byte.byte_dec_bl in E; contradiction|].
  reflexivity.
Qed.

Lemma read_string_utf8 (s : list byte) (start len : nat) (e : VerboseDecodeError.t) :
  0 < len -> nth (start + len - 1) s x00 = x00 ->
  utf8_valid (firstn (len - 1) (skipn start s)) = false ->
  exists er, read_string s start len e = Err (VerboseDecodeError.Utf8 er).
Proof.
  intros Hpos Hlast Hv. unfold read_string.
  replace (Nat.ltb 0 len) with true by (symmetry; now apply Nat.ltb_lt).
  rewrite Hlast. change (u8_of x00 =? 0)%N with true. cbn [negb].
  unfold utf8_valid in Hv. destruct (from_utf8 _); [discriminate|]. eauto.
Qed.

(** X9: [read_var_name_and_unit(be)] on a slicer whose remaining bytes start
    with the name length [n] and the unit length [u]. Fewer than [n + u]
    bytes after the prefixes fail with [UnexpectedEndOfSlice]. Otherwise
    the name is checked first: for [n > 0] its last byte must be [0x00]
    and its first [n - 1] bytes valid UTF-8; then the unit, in the same way
    with the unit's errors. On success it returns the name and the unit
    without their terminators and consumes [4 + n + u] bytes. Failures
    leave the slicer unchanged. *)
Theorem read_var_name_and_unit_spec (be : bool) (sl : FieldSlicer)
  (b0 b1 b2 b3 : byte) (r : list byte) :
  rest sl = b0 :: b1 :: b2 :: b3 :: r ->
  let n := N.to_nat (if be then be_u16 b0 b1 else le_u16 b0 b1) in
  let u := N.to_nat (if be then be_u16 b2 b3 else le_u16 b2 b3) in
  let name_ok := n = 0 \/ (nth (n - 1) r x00 = x00 /\
                           utf8_valid (firstn (n - 1) r) = true) in
  let unit_ok := u = 0 \/ (nth (n + u - 1) r x00 = x00 /\
                           utf8_valid (firstn (u - 1) (skipn n r)) = true) in
  (List.length r < n + u ->
   read_var_name_and_unit be sl
   = (Err (VerboseDecodeError.UnexpectedEndOfSlice
             (mkUnexpectedEndOfSliceError VerboseValue
                (usize_add (offset sl) (N.of_nat (4 + n + u)))
                (usize_add (offset sl) (N.of_nat (4 + List.length r))))), sl)) /\
  (n + u <= List.length r -> 0 < n -> nth (n - 1) r x00 <> x00 ->
   read_var_name_and_unit be sl
   = (Err VerboseDecodeError.VariableNameStringMissingNullTermination, sl)) /\
  (n + u <= List.length r -> 0 < n -> nth (n - 1) r x00 = x00 ->
   utf8_valid (firstn (n - 1) r) = false ->
   exists e, read_var_name_and_unit be sl = (Err (VerboseDecodeError.Utf8 e), sl)) /\
  (n + u <= List.length r -> name_ok -> 0 < u -> nth (n + u - 1) r x00 <> x00 ->
   read_var_name_and_unit be sl
   = (Err VerboseDecodeError.VariableUnitStringMissingNullTermination, sl)) /\
  (n + u <= List.length r -> name_ok -> 0 < u -> nth (n + u - 1) r x00 = x00 ->
   utf8_valid (firstn (u - 1) (skipn n r)) = false ->
   exists e, read_var_name_and_unit be sl = (Err (VerboseDecodeError.Utf8 e), sl)) /\
  (n + u <= List.length r -> name_ok -> unit_ok ->
   read_var_name_and_unit be sl
   = (Ok (firstn (n - 1) r, firstn (u - 1) (skipn n r)),
      mkFieldSlicer (skipn (n + u) r) (usize_add (offset sl) (N.of_nat (4 + n + u))))).
Proof.
  intros Hrest n u name_ok unit_ok.
  destruct sl as [rs off]; cbn [rest offset] in *; subst rs.
  set (s := b0 :: b1 :: b2 :: b3 :: r).
  unfold read_var_name_and_unit, advance, unexpected_end. cbv zeta.
  cbn [rest offset].
  change (length_prefix be s 0) with n. change (length_prefix be s 2) with u.
  replace (Nat.ltb (List.length s) 4) with false by reflexivity.
  change (List.length s) with (4 + List.length r).
  assert (Hskip : skipn 4 s = r) by reflexivity.
  assert (Hskip2 : skipn (4 + n) s = skipn n r) by reflexivity.
  assert (Hnl : 0 < n -> nth (4 + n - 1) s x00 = nth (n - 1) r x00).
  { intros Hp. replace (4 + n - 1) with (4 + (n - 1)) by lia. reflexivity. }
  assert (Hul : 0 < u -> nth (4 + n + u - 1) s x00 = nth (n + u - 1) r x00).
  { intros Hp. replace (4 + n + u - 1) with (4 + (n + u - 1)) by lia. reflexivity. }
  assert (Hname : name_ok -> read_string s 4 n
                     VerboseDecodeError.VariableNameStringMissingNullTermination
                   = Ok (firstn (n - 1) r)).
  { intros [H0|[Hl Hv]]; rewrite <- Hskip; apply read_string_ok; [now left|].
    destruct (Nat.eq_dec n 0) as [H0|H0]; [now left|right].
    rewrite Hnl by lia. rewrite Hskip. auto. }
  assert (Hunit : unit_ok -> read_string s (4 + n) u
                     VerboseDecodeError.VariableUnitStringMissingNullTermination
                   = Ok (firstn (u - 1) (skipn n r))).
  { intros [H0|[Hl Hv]]; rewrite <- Hskip2; apply read_string_ok; [now left|].
    destruct (Nat.eq_dec u 0) as [H0|H0]; [now left|right].
    rewrite Hul by lia. rewrite Hskip2. auto. }
  repeat split; intros Hlen.
  - replace (Nat.ltb (4 + List.length r) (4 + n + u)) with true
      by (symmetry; apply Nat.ltb_lt; lia). reflexivity.
  - intros Hpos Hlast.
    replace (Nat.ltb (4 + List.length r) (4 + n + u)) with false
      by (symmetry; apply Nat.ltb_ge; lia).
    rewrite read_string_null; [reflexivity | exact Hpos | now rewrite Hnl].
  - intros Hpos Hlast Hv.
    replace (Nat.ltb (4 + List.length r) (4 + n + u)) with false
      by (symmetry; apply Nat.ltb_ge; lia).
    destruct (read_string_utf8 s 4 n
                VerboseDecodeError.VariableNameStringMissingNullTermination)
      as [er Her]; [exact Hpos | now rewrite Hnl | now rewrite Hskip |].
    rewrite Her. eauto.
  - intros Hn Hpos Hlast.
    replace (Nat.ltb (4 + List.length r) (4 + n + u)) with false
      by (symmetry; apply Nat.ltb_ge; lia).
    rewrite (Hname Hn).
    rewrite read_string_null; [reflexivity | exact Hpos | now rewrite Hul].
  - intros Hn Hpos Hlast Hv.
    replace (Nat.ltb (4 + List.length r) (4 + n + u)) with false
      by (symmetry; apply Nat.ltb_ge; lia).
    rewrite (Hname Hn).
    destruct (read_string_utf8 s (4 + n) u
                VerboseDecodeError.VariableUnitStringMissingNullTermination)
      as [er Her]; [exact Hpos | now rewrite Hul | now rewrite Hskip2 |].
    rewrite Her. eauto.
  - intros Hn Hu.
    replace (Nat.ltb (4 + List.length r) (4 + n + u)) with false
      by (symmetry; apply Nat.ltb_ge; lia).
    rewrite (Hname Hn), (Hunit Hu). reflexivity.
Qed.

(** ** Encoding and reading back a variable name *)

Lemma length_prefix_u16_bytes (be : bool) (x : N) (s : list byte) :
  (x < 2 ^ 16)%N -> length_prefix be (u16_bytes be x ++ s) 0 = N.to_nat x.
Proof.
  intros H. unfold length_prefix, u16_bytes, u16_to_be.
  destruct be; cbn [rev app nth Nat.add].
  - now rewrite be_u16_as_u8.
  - unfold le_u16. fold (be_u16 (as_u8 (N.shiftr x 8)) (as_u8 x)).
    now rewrite be_u16_as_u8.
Qed.

(** X10: a valid UTF-8 name of fewer than 65535 bytes, written as its
    length + 1 in [be] byte order, its bytes and a [0x00], is read back by
    [read_var_name(be)], which consumes exactly those [length + 3] bytes. *)
Theorem read_var_name_roundtrip (be : bool) (name r : list byte) (off : N) :
  utf8_valid name = true -> (N.of_nat (List.length name) < 65535)%N ->
  read_var_name be
    (mkFieldSlicer (u16_bytes be (N.of_nat (List.length name + 1)) ++ name ++ x00 :: r) off)
  = (Ok name, mkFieldSlicer r (usize_add off (N.of_nat (List.length name + 3)))).
Proof.
  intros Hv Hlen.
  set (s := u16_bytes be (N.of_nat (List.length name + 1)) ++ name ++ x00 :: r).
  assert (Hs2 : skipn 2 s = name ++ x00 :: r) by (subst s; now destruct be).
  assert (Hls : List.length s = 2 + (List.length name + 1 + List.length r)).
  { subst s. rewrite length_app, length_app. cbn [List.length].
    destruct be; cbn [u16_bytes u16_to_be rev app List.length]; lia. }
  assert (Hpre : length_prefix be s 0 = List.length name + 1).
  { subst s. rewrite length_prefix_u16_bytes, Nat2N.id; [reflexivity|].
    change (2 ^ 16)%N with 65536%N. lia. }
  unfold read_var_name, advance, unexpected_end. cbn [rest offset].
  rewrite Hpre, Hls.
  replace (Nat.ltb (2 + (List.length name + 1 + List.length r)) 2) with false
    by (symmetry; apply Nat.ltb_ge; lia).
  replace (Nat.ltb (2 + (List.length name + 1 + List.length r)) (2 + (List.length name + 1)))
    with false by (symmetry; apply Nat.ltb_ge; lia).
  rewrite read_string_ok.
  - rewrite Hs2, Nat.add_sub, firstn_app, firstn_all, Nat.sub_diag, firstn_O, app_nil_r.
    replace (2 + (List.length name + 1)) with (2 + List.length name + 1) by lia.
    assert (Hr : skipn (2 + List.length name + 1) s = r).
    { replace (2 + List.length name + 1) with (S (List.length name) + 2) by lia.
      rewrite <- skipn_skipn, Hs2, skipn_app, skipn_all2 by lia.
      replace (S (List.length name) - List.length name) with 1 by lia.
      reflexivity. }
    rewrite Hr. do 3 f_equal. lia.
  - right. rewrite Hs2, Nat.add_sub, firstn_app, firstn_all, Nat.sub_diag, firstn_O,
      app_nil_r. split; [|exact Hv].
    replace (2 + (List.length name + 1) - 1) with (2 + List.length name) by lia.
    rewrite <- (firstn_skipn 2 s), Hs2, app_nth2; rewrite length_firstn, Hls.
    + replace (2 + List.length name - Nat.min 2 (2 + (List.length name + 1 + List.length r)))
        with (List.length name + 0) by lia.
      rewrite app_nth2_plus. reflexivity.
    + lia.
Qed.

(** ** [DltHeader::verbose] *)

Lemma testbit0_as_u8 (x : N) : N.testbit (u8_of (as_u8 x)) 0 = N.testbit x 0.
Proof.
  rewrite u8_of_as_u8. change 256%N with (2 ^ 8)%N.
  rewrite N.mod_pow2_bits_low by lia. reflexivity.
Qed.

Lemma is_verbose_testbit (e : ExtendedDltHeader) :
  is_verbose e = N.testbit (message_info e) 0.
Proof.
  unfold is_verbose.
  replace (N.land (message_info e) 1) with (message_info e mod 2)%N
    by (rewrite <- (N.land_ones _ 1); reflexivity).
  rewrite <- N.bit0_mod. now destruct (N.testbit (message_info e) 0).
Qed.

(** X11: for a header decoded by [DltHeader::read], [verbose()] is true
    exactly when the header type byte has the extended-header flag (bit 0)
    and the first byte of the extended header, at offset
    [header_len() - 10], has bit 0 (verbose) set. *)
Theorem verbose_from_bytes (bs rest : list byte) (h : DltHeader) :
  read bs = Ok (h, rest) ->
  verbose h = flag_set (u8_of (nth 0 bs x00)) EXTDENDED_HEADER_FLAG
              && N.testbit (u8_of (nth (N.to_nat (header_len h) - 10) bs x00)) 0.
Proof.
  intros H. apply read_inv in H as [-> Hv].
  destruct (header_type_of_spec h Hv) as (Hm & Hx & _).
  replace (nth 0 (encode h ++ rest) x00) with (as_u8 (header_type_of h)) by reflexivity.
  rewrite u8_of_as_u8, Hm, Hx.
  unfold verbose.
  destruct h as [be v mc len ecu ses ts ext].
  unfold encode, header_len, opt_u32_be, u16_to_be, u32_to_be.
  cbn [extended_header ecu_id session_id timestamp].
  destruct ext as [e|]; [|reflexivity].
  cbn [is_some andb]. rewrite is_verbose_testbit.
  destruct ecu, ses, ts;
    match goal with |- context [nth ?k _ _] =>
      let k' := eval vm_compute in k in change k with k' end;
    cbn [app nth]; now rewrite testbit0_as_u8.
Qed.

(** * Witnesses *)

Lemma write_read_roundtrip_witness :
  header_wfb sample_header = true /\ (version sample_header <= 7)%N /\
  fst (write sample_header (vec_sink [])) = Ok tt /\
  read (written (snd (write sample_header (vec_sink [])))) = Ok (sample_header, []).
Proof.
  split; [reflexivity|]. split; [cbn; lia|].
  apply write_read_roundtrip; [reflexivity | cbn; lia].
Defined.

Lemma read_write_roundtrip_witness :
  read [x26; x05; x00; x10; x01; x02; x03; x04; xaa]
  = Ok (mkDltHeader true 1 5 16 (Some 16909060%N) None None None, [xaa]) /\
  exists consumed,
    [x26; x05; x00; x10; x01; x02; x03; x04; xaa] = consumed ++ [xaa] /\
    write (mkDltHeader true 1 5 16 (Some 16909060%N) None None None) (vec_sink [])
    = (Ok tt, vec_sink consumed).
Proof.
  split; [reflexivity|].
  apply read_write_roundtrip. reflexivity.
Defined.

Lemma from_slice_invariants_witness :
  let buf := [x00; x00; x00; x08; x01; x02; x03; x04; x09] in
  let p := mkDltPacketSlice [x00; x00; x00; x08; x01; x02; x03; x04] 4 in
  from_slice buf = Ok p /\
  header_size p + 4 <= List.length (slice p) <= List.length buf /\
  (exists b0 b1 b2 b3 r, slice p = b0 :: b1 :: b2 :: b3 :: r /\
     List.length (slice p) = N.to_nat (be_u16 b2 b3)) /\
  payload p = Some (skipn (header_size p) (slice p)).
Proof.
  intros buf p. split; [reflexivity|].
  apply from_slice_invariants. reflexivity.
Defined.


Lemma read_var_name_spec_witness :
  let sl := mkFieldSlicer [x00; x03; x61; x62; x00] 10 in
  rest sl = x00 :: x03 :: [x61; x62; x00] /\
  let n := N.to_nat (be_u16 x00 x03) in
  (n = 0 ->
   read_var_name true sl = (Ok [], mkFieldSlicer [x61; x62; x00] (usize_add (offset sl) 2))) /\
  (0 < n -> List.length [x61; x62; x00] < n ->
   read_var_name true sl
   = (Err (VerboseDecodeError.UnexpectedEndOfSlice
             (mkUnexpectedEndOfSliceError VerboseValue
                (usize_add (offset sl) (N.of_nat (2 + n)))
                (usize_add (offset sl) (N.of_nat (2 + List.length [x61; x62; x00]))))),
      sl)) /\
  (0 < n -> n <= List.length [x61; x62; x00] -> nth (n - 1) [x61; x62; x00] x00 <> x00 ->
   read_var_name true sl
   = (Err VerboseDecodeError.VariableNameStringMissingNullTermination, sl)) /\
  (0 < n -> n <= List.length [x61; x62; x00] -> nth (n - 1) [x61; x62; x00] x00 = x00 ->
   utf8_valid (firstn (n - 1) [x61; x62; x00]) = false ->
   exists e, read_var_name true sl = (Err (VerboseDecodeError.Utf8 e), sl)) /\
  (0 < n -> n <= List.length [x61; x62; x00] -> nth (n - 1) [x61; x62; x00] x00 = x00 ->
   utf8_valid (firstn (n - 1) [x61; x62; x00]) = true ->
   read_var_name true sl
   = (Ok (firstn (n - 1) [x61; x62; x00]),
      mkFieldSlicer (skipn n [x61; x62; x00])
        (usize_add (offset sl) (N.of_nat (2 + n))))).
Proof.
  intros sl. split; [reflexivity|].
  exact (read_var_name_spec true sl x00 x03 [x61; x62; x00] eq_refl).
Defined.

Lemma header_of_packet_witness :
  let buf := [x04; x01; x00; x0c; x0a; x0b; x0c; x0d; x01; x02; x03; x04; x09] in
  let p := mkDltPacketSlice [x04; x01; x00; x0c; x0a; x0b; x0c; x0d; x01; x02; x03; x04] 8 in
  from_slice buf = Ok p /\
  exists h, header p = Some h /\
            read (slice p) = Ok (h, skipn (header_size p) (slice p)) /\
            header_len h = N.of_nat (header_size p).
Proof.
  intros buf p. split; [reflexivity|].
  apply (header_of_packet buf). reflexivity.
Defined.

Lemma write_into_sinks_witness :
  (version sample_header <= 7)%N /\
  let bs := written (snd (write sample_header (vec_sink []))) in
  N.of_nat (List.length bs) = header_len sample_header /\
  (4 <= header_len sample_header <= 26)%N /\
  write sample_header (vec_sink [x01]) = (Ok tt, vec_sink ([x01] ++ bs)) /\
  (List.length bs <= 5 ->
   write sample_header (mkSink [x01] (Some 5))
   = (Ok tt, mkSink ([x01] ++ bs) (Some (5 - List.length bs)))) /\
  (5 < List.length bs ->
   write sample_header (mkSink [x01] (Some 5))
   = (Err (WriteError.IoError WriteZero), mkSink ([x01] ++ firstn 5 bs) (Some 0))).
Proof.
  split; [cbn; lia|].
  apply write_into_sinks. cbn; lia.
Defined.

Lemma iterate_packets_witness :
  let packets := [(sample_packet_header, [x01; x02; x03; x04; x05]);
                  (mkDltHeader true 2 0 12 (Some 1%N) None None None,
                   [x0a; x0b; x0c; x0d])] in
  forallb packet_ok packets = true /\
  next_n (List.length packets + 2)
    (concat (map (fun hp => packet_bytes (fst hp) (snd hp)) packets) ++ [x00; x01])
  = map (fun hp => Some (Ok (mkDltPacketSlice (packet_bytes (fst hp) (snd hp))
                               (N.to_nat (header_len (fst hp)))))) packets
    ++ next_n 2 [x00; x01].
Proof.
  intros packets. split; [reflexivity|].
  apply iterate_packets. reflexivity.
Defined.

Lemma next_exhausted_witness :
  let it := [x00; x00; x00; x08; x01; x02; x03; x04] in
  List.length it / 8 < 2 /\ next_n (2 + 1) it = next_n 2 it ++ repeat None 1.
Proof.
  intros it. split; [cbn; lia|].
  apply next_exhausted. cbn; lia.
Defined.

Lemma read_var_name_and_unit_spec_witness :
  let sl := mkFieldSlicer [x00; x03; x00; x02; x61; x62; x00; x6d; x00; x07] 0 in
  let r := [x61; x62; x00; x6d; x00; x07] in
  rest sl = x00 :: x03 :: x00 :: x02 :: r /\
  let n := N.to_nat (be_u16 x00 x03) in
  let u := N.to_nat (be_u16 x00 x02) in
  let name_ok := n = 0 \/ (nth (n - 1) r x00 = x00 /\
                           utf8_valid (firstn (n - 1) r) = true) in
  let unit_ok := u = 0 \/ (nth (n + u - 1) r x00 = x00 /\
                           utf8_valid (firstn (u - 1) (skipn n r)) = true) in
  (n + u <= List.length r -> name_ok -> unit_ok ->
   read_var_name_and_unit true sl
   = (Ok (firstn (n - 1) r, firstn (u - 1) (skipn n r)),
      mkFieldSlicer (skipn (n + u) r) (usize_add (offset sl) (N.of_nat (4 + n + u))))).
Proof.
  intros sl r. split; [reflexivity|].
  exact (proj2 (proj2 (proj2 (proj2 (proj2
    (read_var_name_and_unit_spec true sl x00 x03 x00 x02 r eq_refl)))))).
Defined.

Lemma read_var_name_roundtrip_witness :
  utf8_valid [x61; x62] = true /\ (N.of_nat (List.length [x61; x62]) < 65535)%N /\
  read_var_name false
    (mkFieldSlicer (u16_bytes false (N.of_nat (List.length [x61; x62] + 1))
                    ++ [x61; x62] ++ x00 :: [x07]) 5)
  = (Ok [x61; x62], mkFieldSlicer [x07] (usize_add 5 (N.of_nat (List.length [x61; x62] + 3)))).
Proof.
  split; [reflexivity|]. split; [cbn; lia|].
  apply read_var_name_roundtrip; [reflexivity | cbn; lia].
Defined.

Lemma verbose_from_bytes_witness :
  let bs := [x01; x00; x00; x12; x41; x02; x01; x01; x01; x01; x02; x02; x02; x02; x09] in
  let h := mkDltHeader false 0 0 18 None None None
             (Some (mkExtendedDltHeader 65 2 16843009 33686018)) in
  read bs = Ok (h, [x09]) /\
  verbose h = flag_set (u8_of (nth 0 bs x00)) EXTDENDED_HEADER_FLAG
              && N.testbit (u8_of (nth (N.to_nat (header_len h) - 10) bs x00)) 0.
Proof.
  intros bs h. split; [reflexivity|].
  apply (verbose_from_bytes bs [x09] h). reflexivity.
Defined.
